(** * Mini store: inventory and shopping cart (store.py)

    A shallow embedding of the classes [Product], [CartItem], [Cart] and
    [Store] of store.py and of its menus, and the properties of its
    specification.

    Modelling choices.
    - Python integers ([stock], [quantity]) are unbounded: [Z].
    - Prices and line totals are Python floats: the binary64 numbers of the
      Standard Library's [spec_float], with infinities and NaN. [price <= 0]
      is the IEEE comparison, false of NaN. [price * quantity] converts the
      integer to a float, which raises [OverflowError] beyond the float
      range, and multiplies with rounding to nearest even.
    - [sum] over floats is the interpreter's (its rounding differs between
      versions of CPython): it is the parameter [float_sum], of which
      nothing is assumed. [sum] of no term is the integer 0.
    - Names are Python strings: [string]. [str.lower] is the parameter
      [lower], of which nothing is assumed.
    - A [Product] is a mutable object shared between the catalog
      ([Store.products]) and the cart items that refer to it. The object
      store is a total map [heap] from references to products; the catalog
      and the cart items hold references, so a stock decrement made through
      a cart item is seen through the catalog.
    - [CartItem] objects are reachable from one cart only, so a cart is a
      list of item values; [item.quantity += quantity] rebuilds the list
      with the item replaced in place.
    - [print] is modelled by the list of messages a call emits, one
      constructor per [print] statement of the source.
    - A call ends by returning or by an exception that nothing catches:
      [outcome]. *)

From Stdlib Require Import ZArith QArith Lia Ascii String SpecFloat.
From stdpp Require Import base decidable option strings functions list.

Local Open Scope Z_scope.

(** ** Python numbers *)

(** A Python float. *)
Definition float := spec_float.

(** The float nearest to an integer, to even on a tie; an infinity beyond
    the float range. *)
Definition float_of_Z (z : Z) : float := binary_normalize 53 1024 z 0 false.

(** The conversion of the integer operand of [float * int]: [None] is the
    [OverflowError] "int too large to convert to float". *)
Definition float_of_int (z : Z) : option float :=
  match float_of_Z z with
  | S754_infinity _ => None
  | f => Some f
  end.

(** [x * y] on floats. *)
Definition float_mul (x y : float) : float := SFmul 53 1024 x y.

(** The tests [x <= 0] and [x > 0] on a float; both are false of NaN. *)
Definition le_zero (x : float) : bool := SFleb x (S754_zero false).
Definition gt_zero (x : float) : bool := SFltb (S754_zero false) x.

Definition is_nan (x : float) : bool :=
  match x with
  | S754_nan => true
  | _ => false
  end.

(** What [sum] returns: the integer it starts from, or a float. *)
Inductive number :=
| PyInt (z : Z)
| PyFloat (f : float).

(** How a call ends: it returns, an exception leaves it ([EOFError] from
    [input()] at the end of the input, [OverflowError] from
    [price * quantity]), or the fuel of the model ran out. *)
Inductive outcome := Returned | RaisedEOF | RaisedOverflow | NoFuel.

(** ** Data model *)

(** A reference to a [Product] object. *)
Definition ref := nat.

(** class Product: [name], [price], [stock]. *)
Record Product := mkProduct {
  name : string;
  price : float;
  stock : Z
}.

(** The object store. *)
Definition heap := ref → Product.

(** class CartItem: [product] (a reference), [quantity]. *)
Record CartItem := mkCartItem {
  product : ref;
  quantity : Z
}.

(** The lines written by [print], with the values they interpolate. *)
Inductive message :=
| MsgQuantityMustBePositive
| MsgNotEnoughStock (available : Z)
| MsgCannotAddMore (q : Z)
| MsgAddedToCart (q : Z) (n : string)
| MsgRemovedFromCart (n : string)
| MsgNotInCart
| MsgCartEmpty
| MsgFinalCheckout
| MsgItemLine (n : string) (q : Z) (total : float)
| MsgTotalDue (total : number)
| MsgThankYou
| MsgPriceMustBePositive
| MsgStockCannotBeNegative
| MsgProductAdded (n : string) (p : float) (s : Z).

(** [item.product.stock -= item.quantity]: the write goes to the shared
    product object. *)
Definition decrement_stock (h : heap) (r : ref) (q : Z) : heap :=
  <[r := mkProduct (name (h r)) (price (h r)) (stock (h r) - q)]> h.

(** ** CartItem *)

(** CartItem.get_total_price: [self.product.price * self.quantity]; [None]
    is the [OverflowError] of the conversion of the quantity. *)
Definition get_total_price (h : heap) (item : CartItem) : option float :=
  match float_of_int (quantity item) with
  | Some q => Some (float_mul (price (h (product item))) q)
  | None => None
  end.

(** ** Cart *)

(** The [for item in self.items] loop of [add_to_cart], with the append that
    follows it when the loop ends without a [return]. *)
Fixpoint add_to_cart_loop (h : heap) (p : ref) (q : Z) (items : list CartItem)
  : bool * list CartItem * list message :=
  match items with
  | [] =>
      (true, [mkCartItem p q], [MsgAddedToCart q (name (h p))])
  | item :: rest =>
      if decide (name (h (product item)) = name (h p)) then
        if stock (h p) <? quantity item + q then
          (false, item :: rest, [MsgCannotAddMore q])
        else
          (true, mkCartItem (product item) (quantity item + q) :: rest,
           [MsgAddedToCart q (name (h p))])
      else
        let '(ok, rest', out) := add_to_cart_loop h p q rest in
        (ok, item :: rest', out)
  end.

(** Cart.add_to_cart: the returned boolean, the new [self.items] and the
    output. *)
Definition add_to_cart (h : heap) (items : list CartItem) (p : ref) (q : Z)
  : bool * list CartItem * list message :=
  if q <=? 0 then (false, items, [MsgQuantityMustBePositive])
  else if stock (h p) <? q then (false, items, [MsgNotEnoughStock (stock (h p))])
  else add_to_cart_loop h p q items.

Section WithSum.

(** [sum] on the floats of a list that is not empty. *)
Variable float_sum : list float → float.

(** Cart.total_price: [sum] of the line totals; [None] is the
    [OverflowError] of a line total. *)
Definition total_price (h : heap) (items : list CartItem) : option number :=
  match mapM (get_total_price h) items with
  | None => None
  | Some [] => Some (PyInt 0)
  | Some (t :: ts) => Some (PyFloat (float_sum (t :: ts)))
  end.

(** The [for item in self.items] loop of [checkout]: the line of an item
    is printed, which takes its line total, before its stock is
    decremented; an [OverflowError] leaves the loop there. *)
Fixpoint checkout_loop (h : heap) (items : list CartItem)
  : heap * list message * outcome :=
  match items with
  | [] => (h, [], Returned)
  | item :: rest =>
      match get_total_price h item with
      | None => (h, [], RaisedOverflow)
      | Some t =>
          let line := MsgItemLine (name (h (product item))) (quantity item) t in
          let '(h', out, o) :=
            checkout_loop (decrement_stock h (product item) (quantity item)) rest in
          (h', line :: out, o)
      end
  end.

(** Cart.checkout: the new object store, the new [self.items], the output
    and how the call ended. The cart is cleared last, so an exception
    leaves it as it was. *)
Definition checkout (h : heap) (items : list CartItem)
  : heap * list CartItem * list message * outcome :=
  match items with
  | [] => (h, items, [MsgCartEmpty], Returned)
  | _ :: _ =>
      match checkout_loop h items with
      | (h', out, Returned) =>
          match total_price h' items with
          | Some t =>
              (h', [], MsgFinalCheckout :: out ++ [MsgTotalDue t; MsgThankYou], Returned)
          | None => (h', items, MsgFinalCheckout :: out, RaisedOverflow)
          end
      | (h', out, o) => (h', items, MsgFinalCheckout :: out, o)
      end
  end.

End WithSum.

Section WithLower.

(** [str.lower]. *)
Variable lower : string → string.

(** The test [item.product.name.lower() == product_name.lower()]. *)
Definition name_matches (h : heap) (product_name : string) (r : ref) : bool :=
  bool_decide (lower (name (h r)) = lower product_name).

(** The [for i, item in enumerate(self.items)] loop of [remove_from_cart]:
    the index and the item of the first match, scanning from index [i]. *)
Fixpoint remove_scan (h : heap) (product_name : string) (i : nat)
    (items : list CartItem) : option (nat * CartItem) :=
  match items with
  | [] => None
  | item :: rest =>
      if name_matches h product_name (product item) then Some (i, item)
      else remove_scan h product_name (S i) rest
  end.

(** Cart.remove_from_cart: [self.items.pop(i)] is [delete i]. *)
Definition remove_from_cart (h : heap) (items : list CartItem) (product_name : string)
  : bool * list CartItem * list message :=
  match remove_scan h product_name 0 items with
  | Some (i, removed_item) =>
      (true, delete i items, [MsgRemovedFromCart (name (h (product removed_item)))])
  | None => (false, items, [MsgNotInCart])
  end.

(** ** Store *)

(** Store.find_product: the first product of [self.products] whose lowered
    name is the lowered argument. *)
Fixpoint find_product (h : heap) (products : list ref) (n : string) : option ref :=
  match products with
  | [] => None
  | r :: rest =>
      if name_matches h n r then Some r else find_product h rest n
  end.

End WithLower.

(** The state of a run: the object store with its allocation pointer, the
    catalog [Store.products] and the items of the customer's [Cart]. *)
Record State := mkState {
  objs : heap;
  next : ref;
  products : list ref;
  items : list CartItem
}.

(** Store.add_product: [Product(name, price, stock)] allocates the object at
    [next]; the catalog gets the reference appended. *)
Definition add_product (s : State) (n : string) (p : float) (st : Z)
  : bool * State * list message :=
  if le_zero p then (false, s, [MsgPriceMustBePositive])
  else if st <? 0 then (false, s, [MsgStockCannotBeNegative])
  else
    (true,
     mkState (<[next s := mkProduct n p st]> (objs s)) (S (next s))
             (products s ++ [next s]) (items s),
     [MsgProductAdded n p st]).

(** ** Runs of the program *)

(** Store.__init__ and Cart.__init__: no product, no item. *)
Definition init : State := mkState (λ _, mkProduct "" (S754_zero false) 0) 0%nat [] [].

(** The calls a run is made of. [OpAddToCart r q] is
    [cart.add_to_cart(product, q)] for the product object [r];
    [OpNewCart] is [cart = Cart()] at the start of a customer session. *)
Inductive op :=
| OpAddProduct (n : string) (p : float) (st : Z)
| OpAddToCart (r : ref) (q : Z)
| OpRemoveFromCart (n : string)
| OpCheckout
| OpNewCart.

Section Runs.

Variable float_sum : list float → float.
Variable lower : string → string.

(** The state after one call; after a [checkout] that an [OverflowError]
    left, the state the exception leaves behind. *)
Definition exec (s : State) (o : op) : State :=
  match o with
  | OpAddProduct n p st => (add_product s n p st).1.2
  | OpAddToCart r q =>
      mkState (objs s) (next s) (products s) (add_to_cart (objs s) (items s) r q).1.2
  | OpRemoveFromCart n =>
      mkState (objs s) (next s) (products s) (remove_from_cart lower (objs s) (items s) n).1.2
  | OpCheckout =>
      let '(h', items', _, _) := checkout float_sum (objs s) (items s) in
      mkState h' (next s) (products s) items'
  | OpNewCart => mkState (objs s) (next s) (products s) []
  end.

Definition run (s : State) (ops : list op) : State := fold_left exec ops s.

(** Which calls a run is made of. For any caller of the classes:
    [add_to_cart] gets any product of the catalog, and the run goes on
    whatever a call did (the caller may catch the exception of a
    [checkout]) ... *)
Definition any_product (s : State) (o : op) : Prop :=
  match o with
  | OpAddToCart r _ => r ∈ products s
  | _ => True
  end.

(** ... and for the program: [customer_menu] passes to [add_to_cart] only
    what [find_product] returned for the name the customer typed, and
    nothing follows a [checkout] that raised, since nothing in the program
    catches the [OverflowError]. *)
Definition found_product (s : State) (o : op) : Prop :=
  match o with
  | OpAddToCart r _ => ∃ n, find_product lower (objs s) (products s) n = Some r
  | OpCheckout => (checkout float_sum (objs s) (items s)).2 = Returned
  | _ => True
  end.

(** The states a run can be in, from the empty store and cart. *)
Inductive reachable (ok : State → op → Prop) : State → Prop :=
| reachable_init : reachable ok init
| reachable_step s o : reachable ok s → ok s o → reachable ok (exec s o).

(** Every call of a run is allowed in the state it is made in. *)
Fixpoint run_ok (ok : State → op → Prop) (s : State) (ops : list op) : Prop :=
  match ops with
  | [] => True
  | o :: ops' => ok s o ∧ run_ok ok (exec s o) ops'
  end.

End Runs.

(** ** Derived notions used by the statements *)

(** The name of the product of a cart item. *)
Definition item_name (h : heap) (item : CartItem) : string :=
  name (h (product item)).

(** The quantity of product [r] held by a cart: the quantities of the items
    whose product is [r], added up. *)
Fixpoint in_cart_quantity (items : list CartItem) (r : ref) : Z :=
  match items with
  | [] => 0
  | item :: rest =>
      (if decide (product item = r) then quantity item else 0) + in_cart_quantity rest r
  end.

(** The receipt line of an item. *)
Definition receipt_line (h : heap) (item : CartItem) (t : float) : message :=
  MsgItemLine (item_name h item) (quantity item) t.

(** ** Invariants *)

(** What holds of every state, whoever calls [add_to_cart]: references are
    allocated, the cart refers to catalog products, no two items of the cart
    have the same product name, quantities are positive and no price is
    <= 0. *)
Record wf (s : State) : Prop := mk_wf {
  wf_alloc : ∀ r, r ∈ products s → (r < next s)%nat;
  wf_refs : ∀ item, item ∈ items s → product item ∈ products s;
  wf_names : NoDup (item_name (objs s) <$> items s);
  wf_quantity : ∀ item, item ∈ items s → 0 < quantity item;
  wf_price : ∀ r, r ∈ products s → le_zero (price (objs s r)) = false
}.

Section Invariants.

Variable lower : string → string.

(** What holds in the runs of the program: the product of every item is
    the one [find_product] gives for its name, no item asks for more than
    the stock, and no stock is negative. *)
Record menu_inv (s : State) : Prop := mk_menu_inv {
  mi_found : ∀ item, item ∈ items s →
    find_product lower (objs s) (products s) (item_name (objs s) item) = Some (product item);
  mi_bound : ∀ item, item ∈ items s → quantity item ≤ stock (objs s (product item));
  mi_stock : ∀ r, r ∈ products s → 0 ≤ stock (objs s r)
}.

End Invariants.

(** ** The properties of the specification that the code does not have,
    as the specification words them *)

(** The invariants as the specification words them, over the states a run
    can be in when the calls [ok] allows are made: every catalog product has
    a non-empty name, a price > 0 and a stock >= 0. *)
Definition product_invariants (float_sum : list float → float)
    (lower : string → string) (ok : State → op → Prop) : Prop :=
  ∀ s r, reachable float_sum lower ok s → r ∈ products s →
    name (objs s r) ≠ "" ∧ gt_zero (price (objs s r)) = true ∧ 0 ≤ stock (objs s r).

(** The invariant as the specification words it: no two items of the cart
    have product names that are equal case-insensitively. *)
Definition one_item_per_lowered_name (float_sum : list float → float)
    (lower : string → string) : Prop :=
  ∀ s, reachable float_sum lower any_product s →
    NoDup ((λ item, lower (item_name (objs s) item)) <$> items s).

(** The round trip as the specification words it: after a successful
    [add_to_cart(product, q)], [remove_from_cart(product.name)] leaves the
    items the cart had before the add. Stated for the carts of the customer
    menu, the product being one that [find_product] returns. *)
Definition add_remove_round_trip (float_sum : list float → float)
    (lower : string → string) : Prop :=
  ∀ s p q its1 out,
    reachable float_sum lower (found_product float_sum lower) s →
    found_product float_sum lower s (OpAddToCart p q) →
    add_to_cart (objs s) (items s) p q = (true, its1, out) →
    (remove_from_cart lower (objs s) its1 (name (objs s p))).1.2 = items s.

(** The property as the specification words it: [add_product] with a price
    > 0 and a stock >= 0 succeeds, and [find_product] of the name then
    returns a product with that price and that stock. *)
Definition add_then_find (float_sum : list float → float)
    (lower : string → string) : Prop :=
  ∀ s n p st,
    reachable float_sum lower (found_product float_sum lower) s →
    gt_zero p = true → 0 ≤ st →
    ∃ s' out r,
      add_product s n p st = (true, s', out) ∧
      find_product lower (objs s') (products s') n = Some r ∧
      price (objs s' r) = p ∧ stock (objs s' r) = st.

(** ** The read-only displays: [Cart.view_cart] and [Store.list_products] *)

(** The lines the two displays write. *)
Inductive display :=
| ShowCartIsEmpty
| ShowCartHeader
| ShowCartItem (n : string) (q : Z) (total : float)
| ShowCartTotal (total : number)
| ShowNoProducts
| ShowProductsHeader
| ShowProduct (i : nat) (n : string) (p : float) (st : Z).

(** The line of an item in the display of the cart. *)
Definition cart_line (h : heap) (item : CartItem) (t : float) : display :=
  ShowCartItem (item_name h item) (quantity item) t.

Section Displays.

Variable float_sum : list float → float.

(** The [for item in self.items] loop of [view_cart]: the line of an item
    takes its line total, whose [OverflowError] leaves the loop. *)
Fixpoint view_cart_loop (h : heap) (items : list CartItem) : list display * outcome :=
  match items with
  | [] => ([], Returned)
  | item :: rest =>
      match get_total_price h item with
      | None => ([], RaisedOverflow)
      | Some t =>
          let '(out, o) := view_cart_loop h rest in
          (ShowCartItem (name (h (product item))) (quantity item) t :: out, o)
      end
  end.

(** Cart.view_cart: nothing but output, and how the call ended. *)
Definition view_cart (h : heap) (items : list CartItem) : list display * outcome :=
  match items with
  | [] => ([ShowCartIsEmpty], Returned)
  | _ :: _ =>
      match view_cart_loop h items with
      | (out, Returned) =>
          match total_price float_sum h items with
          | Some t => (ShowCartHeader :: out ++ [ShowCartTotal t], Returned)
          | None => (ShowCartHeader :: out, RaisedOverflow)
          end
      | (out, o) => (ShowCartHeader :: out, o)
      end
  end.

End Displays.

(** The loop [for i, product in enumerate(self.products, 1)], from index [i]. *)
Fixpoint list_products_loop (h : heap) (i : nat) (products : list ref) : list display :=
  match products with
  | [] => []
  | r :: rest =>
      ShowProduct i (name (h r)) (price (h r)) (stock (h r))
        :: list_products_loop h (S i) rest
  end.

(** Store.list_products *)
Definition list_products (h : heap) (products : list ref) : list display :=
  match products with
  | [] => [ShowNoProducts]
  | _ :: _ => ShowProductsHeader :: list_products_loop h 1 products
  end.

(** ** The menus

    The menus are modelled by what they do to the state and to the input,
    and by how they end: [input()] takes the next line of the list of input
    lines and raises [EOFError] when there is none; what the menus print is
    not recorded. [str.strip], [float] and [int] are parameters, [float]
    and [int] giving [None] where Python raises [ValueError]; [float] can
    give any float, NaN and the infinities with the others. *)

(** The end of a menu, the state then, and the input lines not read. *)
Record result := mkResult {
  how : outcome;
  state : State;
  unread : list string
}.

(** Store.__init__: the credentials. *)
Definition manager_username : string := "admin".
Definition manager_password : string := "1234".

(** Store.manager_login: the two lines read and the comparison; [None] is
    the [EOFError]. *)
Definition manager_login (inputs : list string) : option (bool * list string) :=
  match inputs with
  | username :: password :: rest =>
      Some (bool_decide (username = manager_username) &&
            bool_decide (password = manager_password), rest)
  | _ => None
  end.

Section Menus.

Variable float_sum : list float → float.
Variable lower : string → string.
Variable strip : string → string.
Variable to_float : string → option float.
Variable to_int : string → option Z.

(** Store.add_products_menu. [float(input(...))] is evaluated before the
    stock is asked for: a price that is not a number ends the entry without
    reading a stock line. *)
Fixpoint add_products_menu (s : State) (inputs : list string) : result :=
  match inputs with
  | [] => mkResult RaisedEOF s []
  | n :: rest =>
      if decide (lower n = "done") then mkResult Returned s rest
      else
        match rest with
        | [] => mkResult RaisedEOF s []
        | price_line :: rest2 =>
            match to_float price_line with
            | None => add_products_menu s rest2
            | Some p =>
                match rest2 with
                | [] => mkResult RaisedEOF s []
                | stock_line :: rest3 =>
                    match to_int stock_line with
                    | None => add_products_menu s rest3
                    | Some st => add_products_menu (add_product s n p st).1.2 rest3
                    end
                end
            end
        end
  end.

(** The [while True] loop of [customer_menu]. The quantity is asked for
    only when [find_product] found the product. An [OverflowError] of
    [view_cart] or of [checkout] leaves the loop and the menu. *)
Fixpoint customer_loop (s : State) (inputs : list string) : result :=
  match inputs with
  | [] => mkResult RaisedEOF s []
  | line :: rest =>
      let choice := strip line in
      if decide (choice = "1") then
        match rest with
        | [] => mkResult RaisedEOF s []
        | product_name :: rest2 =>
            match find_product lower (objs s) (products s) product_name with
            | Some r =>
                match rest2 with
                | [] => mkResult RaisedEOF s []
                | quantity_line :: rest3 =>
                    match to_int quantity_line with
                    | Some q => customer_loop (exec float_sum lower s (OpAddToCart r q)) rest3
                    | None => customer_loop s rest3
                    end
                end
            | None => customer_loop s rest2
            end
        end
      else if decide (choice = "2") then
        match rest with
        | [] => mkResult RaisedEOF s []
        | product_name :: rest2 =>
            customer_loop (exec float_sum lower s (OpRemoveFromCart product_name)) rest2
        end
      else if decide (choice = "3") then
        match (view_cart float_sum (objs s) (items s)).2 with
        | Returned => customer_loop s rest
        | o => mkResult o s rest
        end
      else if decide (choice = "4") then
        mkResult (checkout float_sum (objs s) (items s)).2
                 (exec float_sum lower s OpCheckout) rest
      else if decide (choice = "5") then mkResult Returned s rest
      else customer_loop s rest
  end.

(** Store.customer_menu: [cart = Cart()], then the loop. *)
Definition customer_menu (s : State) (inputs : list string) : result :=
  customer_loop (exec float_sum lower s OpNewCart) inputs.

(** Store.manager_menu. Every turn of the loop reads a line, so as many
    turns as there are lines, and one more, is fuel enough. *)
Fixpoint manager_menu (fuel : nat) (s : State) (inputs : list string) : result :=
  match fuel with
  | O => mkResult NoFuel s inputs
  | S fuel' =>
      match inputs with
      | [] => mkResult RaisedEOF s []
      | line :: rest =>
          let choice := strip line in
          if decide (choice = "1") then
            let res := add_products_menu s rest in
            match how res with
            | Returned => manager_menu fuel' (state res) (unread res)
            | _ => res
            end
          else if decide (choice = "2") then manager_menu fuel' s rest
          else if decide (choice = "3") then mkResult Returned s rest
          else manager_menu fuel' s rest
      end
  end.

(** The [while True] loop of [main]. *)
Fixpoint main_loop (fuel : nat) (s : State) (inputs : list string) : result :=
  match fuel with
  | O => mkResult NoFuel s inputs
  | S fuel' =>
      match inputs with
      | [] => mkResult RaisedEOF s []
      | line :: rest =>
          let choice := strip line in
          if decide (choice = "1") then
            match manager_login rest with
            | None => mkResult RaisedEOF s []
            | Some (true, rest') =>
                let res := manager_menu fuel' s rest' in
                match how res with
                | Returned => main_loop fuel' (state res) (unread res)
                | _ => res
                end
            | Some (false, rest') => main_loop fuel' s rest'
            end
          else if decide (choice = "2") then
            let res := customer_menu s rest in
            match how res with
            | Returned => main_loop fuel' (state res) (unread res)
            | _ => res
            end
          else if decide (choice = "3") then mkResult Returned s rest
          else main_loop fuel' s rest
      end
  end.

(** main: the store with its two sample products, then the loop. *)
Definition main (fuel : nat) (inputs : list string) : result :=
  let store := init in
  let store := (add_product store "Laptop" (float_of_Z 1200) 5).1.2 in
  let store := (add_product store "Mouse" (float_of_Z 25) 20).1.2 in
  main_loop fuel store inputs.

End Menus.

(** Where a menu ends: in a state that the calls made have kept within
    [P], or, when an [OverflowError] left it, possibly in what a [checkout]
    that raised made of such a state. *)
Definition ends_from (float_sum : list float → float) (lower : string → string)
    (P : State → Prop) (res : result) : Prop :=
  (how res ≠ RaisedOverflow → P (state res)) ∧
  ∃ s', P s' ∧ (state res = s' ∨ state res = exec float_sum lower s' OpCheckout).

(** ** Instances of the parameters, for concrete runs *)

(** [str.lower] on ASCII names. *)
Definition lower_ascii (c : Ascii.ascii) : Ascii.ascii :=
  let n := nat_of_ascii c in
  if ((65 <=? n) && (n <=? 90))%nat then ascii_of_nat (n + 32) else c.

Fixpoint ascii_lower (s : string) : string :=
  match s with
  | EmptyString => EmptyString
  | String c s' => String (lower_ascii c) (ascii_lower s')
  end.

(** [sum] adding from the left, each addition rounded. *)
Definition sum_left (ts : list float) : float :=
  fold_left (SFadd 53 1024) ts (S754_zero false).

(** [int] and [float] on lines of decimal digits; [float] reads "nan" too. *)
Fixpoint digits_value (acc : Z) (s : string) : option Z :=
  match s with
  | EmptyString => Some acc
  | String c s' =>
      let n := nat_of_ascii c in
      if ((48 <=? n) && (n <=? 57))%nat
      then digits_value (10 * acc + Z.of_nat (n - 48)) s'
      else None
  end.

Definition digits_int (s : string) : option Z :=
  match s with
  | EmptyString => None
  | _ => digits_value 0 s
  end.

Definition digits_float (s : string) : option float :=
  if decide (s = "nan") then Some S754_nan
  else
    match digits_int s with
    | Some z => Some (float_of_Z z)
    | None => None
    end.

(** ** Concrete runs: the scenarios of the specification and the runs the
    examples use *)

Definition seeded : State :=
  run sum_left ascii_lower init
    [OpAddProduct "Laptop" (float_of_Z 1200) 5; OpAddProduct "Mouse" (float_of_Z 25) 20].

(** The manager can add a product with the empty name. *)
Definition nameless_run : list op := [OpAddProduct "" (float_of_Z 1) 0].

(** The manager can add a product whose price is NaN: [nan <= 0] is false. *)
Definition nan_run : list op := [OpAddProduct "Pen" S754_nan 1].

(** Two products of the same name, the second passed to [add_to_cart]
    directly: its stock bounds the quantity of the item of the first. *)
Definition oversell_run : list op :=
  [OpAddProduct "A" (float_of_Z 1) 2; OpAddProduct "A" (float_of_Z 1) 5;
   OpAddToCart 0%nat 2; OpAddToCart 1%nat 3; OpCheckout].

(** [add_to_cart] compares the names with [==]: products "a" and "A" get
    an item each. *)
Definition two_cases_run : list op :=
  [OpAddProduct "a" (float_of_Z 1) 1; OpAddProduct "A" (float_of_Z 1) 1;
   OpAddToCart 0%nat 1; OpAddToCart 1%nat 1].

(** A product with a stock beyond the float range, all of it in the cart
    after one unit of another product. *)
Definition bulk_run : list op :=
  [OpAddProduct "Nail" (float_of_Z 1) 5; OpAddProduct "Sand" (float_of_Z 1) (2 ^ 1024);
   OpAddToCart 0%nat 1; OpAddToCart 1%nat (2 ^ 1024)].

Definition bulk : State := run sum_left ascii_lower init bulk_run.

Definition laptops_sold : State :=
  run sum_left ascii_lower seeded [OpAddToCart 0%nat 2; OpCheckout].

Definition two_items : State :=
  run sum_left ascii_lower seeded [OpAddToCart 0%nat 2; OpAddToCart 1%nat 3; OpAddToCart 0%nat 1].

(** * Properties *)

(** ** The scenarios of the specification *)

Example seeded_catalog :
  products seeded = [0%nat; 1%nat] ∧
  objs seeded 0%nat = mkProduct "Laptop" (float_of_Z 1200) 5 ∧
  objs seeded 1%nat = mkProduct "Mouse" (float_of_Z 25) 20.
Proof. repeat split; reflexivity. Qed.

Example scenario_laptops :
  find_product ascii_lower (objs seeded) (products seeded) "laptop" = Some 0%nat ∧
  let s1 := exec sum_left ascii_lower seeded (OpAddToCart 0%nat 2) in
  items s1 = [mkCartItem 0%nat 2] ∧
  total_price sum_left (objs s1) (items s1) = Some (PyFloat (float_of_Z 2400)) ∧
  add_to_cart (objs s1) (items s1) 0%nat 4 = (false, items s1, [MsgCannotAddMore 4]) ∧
  add_to_cart (objs s1) (items s1) 0%nat 6 = (false, items s1, [MsgNotEnoughStock 5]) ∧
  let s2 := exec sum_left ascii_lower s1 OpCheckout in
  stock (objs s2 0%nat) = 3 ∧ items s2 = [] ∧
  (checkout sum_left (objs s1) (items s1)).1.2 =
    [MsgFinalCheckout; MsgItemLine "Laptop" 2 (float_of_Z 2400);
     MsgTotalDue (PyFloat (float_of_Z 2400)); MsgThankYou].
Proof. vm_compute. repeat split; reflexivity. Qed.

Example scenario_negative_price :
  add_product seeded "Pen" (float_of_Z (-5)) 3 = (false, seeded, [MsgPriceMustBePositive]).
Proof. reflexivity. Qed.

(** ** Floats *)

Lemma le_zero_nan : le_zero S754_nan = false.
Proof. reflexivity. Qed.

(** A float that is neither <= 0 nor NaN is > 0. *)
Lemma not_le_zero_gt_zero x : le_zero x = false → is_nan x = false → gt_zero x = true.
Proof. by destruct x as [[]|[]| |[] m e]. Qed.

Lemma gt_zero_not_le_zero x : gt_zero x = true → le_zero x = false.
Proof. by destruct x as [[]|[]| |[] m e]. Qed.

Lemma le_zero_not_gt_zero x : le_zero x = true → gt_zero x = false.
Proof. by destruct x as [[]|[]| |[] m e]. Qed.

(** ** The object store under [checkout] *)

Lemma decrement_stock_same h r q :
  decrement_stock h r q r = mkProduct (name (h r)) (price (h r)) (stock (h r) - q).
Proof. unfold decrement_stock, insert, fn_insert. by rewrite decide_True. Qed.

Lemma decrement_stock_other h r q r' : r ≠ r' → decrement_stock h r q r' = h r'.
Proof. intros Hne. unfold decrement_stock, insert, fn_insert. by rewrite decide_False. Qed.

Lemma decrement_stock_name h r q r' : name (decrement_stock h r q r') = name (h r').
Proof.
  destruct (decide (r = r')) as [->|Hne].
  - by rewrite decrement_stock_same.
  - by rewrite decrement_stock_other.
Qed.

Lemma decrement_stock_price h r q r' : price (decrement_stock h r q r') = price (h r').
Proof.
  destruct (decide (r = r')) as [->|Hne].
  - by rewrite decrement_stock_same.
  - by rewrite decrement_stock_other.
Qed.

Lemma decrement_stock_stock h r q r' :
  stock (decrement_stock h r q r') = stock (h r') - (if decide (r = r') then q else 0).
Proof.
  destruct (decide (r = r')) as [->|Hne].
  - by rewrite decrement_stock_same.
  - rewrite decrement_stock_other by done. lia.
Qed.

Lemma checkout_loop_name h its r : name ((checkout_loop h its).1.1 r) = name (h r).
Proof.
  revert h. induction its as [|item rest IH]; intros h; simpl; [done|].
  destruct (get_total_price h item) as [t|]; [|done].
  specialize (IH (decrement_stock h (product item) (quantity item))).
  destruct (checkout_loop _ rest) as [[h' out] o]. simpl in *.
  by rewrite IH, decrement_stock_name.
Qed.

Lemma checkout_loop_price h its r : price ((checkout_loop h its).1.1 r) = price (h r).
Proof.
  revert h. induction its as [|item rest IH]; intros h; simpl; [done|].
  destruct (get_total_price h item) as [t|]; [|done].
  specialize (IH (decrement_stock h (product item) (quantity item))).
  destruct (checkout_loop _ rest) as [[h' out] o]. simpl in *.
  by rewrite IH, decrement_stock_price.
Qed.

(** When the loop of [checkout] ends by itself, every product has lost what
    the cart holds of it, no more and no less. *)
Lemma checkout_loop_stock h its r :
  (checkout_loop h its).2 = Returned →
  stock ((checkout_loop h its).1.1 r) = stock (h r) - in_cart_quantity its r.
Proof.
  revert h. induction its as [|item rest IH]; intros h; simpl; [lia|].
  destruct (get_total_price h item) as [t|]; [|done].
  specialize (IH (decrement_stock h (product item) (quantity item))).
  destruct (checkout_loop _ rest) as [[h' out] o]. simpl in *.
  intros Ho. rewrite IH, decrement_stock_stock by done. lia.
Qed.

Lemma in_cart_quantity_nonneg (its : list CartItem) r :
  (∀ item, item ∈ its → 0 < quantity item) → 0 ≤ in_cart_quantity its r.
Proof.
  induction its as [|a its IH]; simpl; intros Hq; [lia|].
  assert (0 < quantity a) by (apply Hq; by left).
  assert (0 ≤ in_cart_quantity its r) by (apply IH; intros; apply Hq; by right).
  destruct (decide (product a = r)); lia.
Qed.

(** However the loop of [checkout] ends, a product has lost at most what
    the cart holds of it, and has gained nothing. *)
Lemma checkout_loop_stock_between h its r :
  (∀ item, item ∈ its → 0 < quantity item) →
  stock (h r) - in_cart_quantity its r ≤ stock ((checkout_loop h its).1.1 r) ∧
  stock ((checkout_loop h its).1.1 r) ≤ stock (h r).
Proof.
  revert h. induction its as [|item rest IH]; intros h Hq; simpl; [lia|].
  assert (0 < quantity item) by (apply Hq; by left).
  assert (Hrest : ∀ item, item ∈ rest → 0 < quantity item)
    by (intros; apply Hq; by right).
  pose proof (in_cart_quantity_nonneg rest r Hrest).
  destruct (get_total_price h item) as [t|]; simpl.
  - specialize (IH (decrement_stock h (product item) (quantity item)) Hrest).
    destruct (checkout_loop _ rest) as [[h' out] o]. simpl in *.
    rewrite decrement_stock_stock in IH. destruct (decide (product item = r)); lia.
  - destruct (decide (product item = r)); lia.
Qed.

Lemma in_cart_quantity_absent its r :
  r ∉ product <$> its → in_cart_quantity its r = 0.
Proof.
  induction its as [|item rest IH]; simpl; [done|].
  intros Hnot. apply not_elem_of_cons in Hnot as [Hne Hrest].
  destruct (decide (product item = r)); [congruence|]. rewrite IH by done. lia.
Qed.

Lemma checkout_loop_untouched h its r :
  r ∉ product <$> its → (checkout_loop h its).1.1 r = h r.
Proof.
  revert h. induction its as [|item rest IH]; intros h; simpl; [done|].
  intros Hnot. apply not_elem_of_cons in Hnot as [Hne Hrest].
  destruct (get_total_price h item) as [t|]; [|done].
  specialize (IH (decrement_stock h (product item) (quantity item)) Hrest).
  destruct (checkout_loop _ rest) as [[h' out] o]. simpl in *.
  rewrite IH. by apply decrement_stock_other.
Qed.

Lemma checkout_loop_outcome h its :
  (checkout_loop h its).2 = Returned ∨ (checkout_loop h its).2 = RaisedOverflow.
Proof.
  revert h. induction its as [|item rest IH]; intros h; simpl; [by left|].
  destruct (get_total_price h item) as [t|]; [|by right].
  specialize (IH (decrement_stock h (product item) (quantity item))).
  by destruct (checkout_loop _ rest) as [[h' out] o].
Qed.

Section CheckoutLemmas.

Variable float_sum : list float → float.

(** The object store after [checkout] is the one its loop leaves. *)
Lemma checkout_heap h its :
  (checkout float_sum h its).1.1.1 = (checkout_loop h its).1.1.
Proof.
  destruct its as [|item rest]; [done|]. unfold checkout.
  destruct (checkout_loop h (item :: rest)) as [[h' out] o]. simpl.
  destruct o; try done. by destruct (total_price float_sum h' (item :: rest)).
Qed.

(** [checkout] returns or raises [OverflowError]; when it returns the cart
    is empty and its loop has ended by itself, and when it raises the cart
    is as it was. *)
Lemma checkout_outcome h its :
  ((checkout float_sum h its).2 = Returned ∧
   (checkout float_sum h its).1.1.2 = [] ∧
   (checkout_loop h its).2 = Returned) ∨
  ((checkout float_sum h its).2 = RaisedOverflow ∧
   (checkout float_sum h its).1.1.2 = its).
Proof.
  destruct its as [|item rest]; [by left|]. unfold checkout.
  pose proof (checkout_loop_outcome h (item :: rest)) as Ho.
  destruct (checkout_loop h (item :: rest)) as [[h' out] o]. simpl in Ho.
  destruct Ho as [-> | ->]; [|by right].
  destruct (total_price float_sum h' (item :: rest)); [by left|by right].
Qed.

End CheckoutLemmas.

(** ** Scanning a list for its first match *)

Lemma first_match_split {A} (P : A → Prop) `{!∀ x, Decision (P x)} (l : list A) :
  Forall (λ x, ¬ P x) l ∨
  ∃ pre x post, l = pre ++ x :: post ∧ Forall (λ x, ¬ P x) pre ∧ P x.
Proof.
  induction l as [|a l IH]; [by left|].
  destruct (decide (P a)) as [Ha|Ha].
  - right. by exists [], a, l.
  - destruct IH as [Hall|(pre & x & post & -> & Hpre & Hx)].
    + left. by constructor.
    + right. exists (a :: pre), x, post. repeat split; [|done]. by constructor.
Qed.

(** ** The loop of [add_to_cart] *)

(** No item has the product's name: the item is appended. *)
Lemma add_to_cart_loop_fresh h p q its :
  Forall (λ item, item_name h item ≠ name (h p)) its →
  add_to_cart_loop h p q its =
    (true, its ++ [mkCartItem p q], [MsgAddedToCart q (name (h p))]).
Proof.
  induction 1 as [|item rest Hne _ IH]; simpl; [done|].
  unfold item_name in Hne. rewrite decide_False by done. by rewrite IH.
Qed.

(** The first item with the product's name decides. *)
Lemma add_to_cart_loop_present h p q pre item post :
  Forall (λ item, item_name h item ≠ name (h p)) pre →
  item_name h item = name (h p) →
  add_to_cart_loop h p q (pre ++ item :: post) =
    if stock (h p) <? quantity item + q
    then (false, pre ++ item :: post, [MsgCannotAddMore q])
    else (true, pre ++ mkCartItem (product item) (quantity item + q) :: post,
          [MsgAddedToCart q (name (h p))]).
Proof.
  intros Hpre Hitem. induction Hpre as [|a pre Hne _ IH]; simpl.
  - unfold item_name in Hitem. rewrite decide_True by done.
    by destruct (stock (h p) <? quantity item + q).
  - unfold item_name in Hne. rewrite decide_False by done. rewrite IH.
    by destruct (stock (h p) <? quantity item + q).
Qed.

(** A rejected [add_to_cart] leaves the items as they are. *)
Lemma add_to_cart_loop_false h p q its its' out :
  add_to_cart_loop h p q its = (false, its', out) → its' = its.
Proof.
  destruct (first_match_split (λ item, item_name h item = name (h p)) its)
    as [Hall|(pre & x & post & -> & Hpre & Hx)].
  - rewrite add_to_cart_loop_fresh by done. congruence.
  - rewrite add_to_cart_loop_present by done.
    destruct (stock (h p) <? quantity x + q); congruence.
Qed.

Lemma add_to_cart_false h its p q its' out :
  add_to_cart h its p q = (false, its', out) → its' = its.
Proof.
  unfold add_to_cart. destruct (q <=? 0); [congruence|].
  destruct (stock (h p) <? q); [congruence|]. apply add_to_cart_loop_false.
Qed.

(** ** The loops of [remove_from_cart] and [find_product] *)

Section ScanLemmas.

Variable lower : string → string.

Lemma remove_scan_first h n k pre x post :
  Forall (λ item, name_matches lower h n (product item) = false) pre →
  name_matches lower h n (product x) = true →
  remove_scan lower h n k (pre ++ x :: post) = Some ((k + length pre)%nat, x).
Proof.
  intros Hpre Hx. revert k. induction Hpre as [|a pre Ha _ IH]; intros k; simpl.
  - rewrite Hx. do 2 f_equal. lia.
  - rewrite Ha, IH. do 2 f_equal. lia.
Qed.

Lemma remove_scan_none h n k its :
  Forall (λ item, name_matches lower h n (product item) = false) its →
  remove_scan lower h n k its = None.
Proof.
  intros Hall. revert k. induction Hall as [|a its Ha _ IH]; intros k; simpl; [done|].
  by rewrite Ha, IH.
Qed.

(** [remove_from_cart] takes out the first matching item and nothing else. *)
Lemma remove_from_cart_first h n pre x post :
  Forall (λ item, name_matches lower h n (product item) = false) pre →
  name_matches lower h n (product x) = true →
  remove_from_cart lower h (pre ++ x :: post) n =
    (true, pre ++ post, [MsgRemovedFromCart (item_name h x)]).
Proof.
  intros Hpre Hx. unfold remove_from_cart.
  rewrite (remove_scan_first h n 0 pre x post Hpre Hx). simpl.
  by rewrite delete_middle.
Qed.

Lemma remove_from_cart_none h n its :
  Forall (λ item, name_matches lower h n (product item) = false) its →
  remove_from_cart lower h its n = (false, its, [MsgNotInCart]).
Proof. intros Hall. unfold remove_from_cart. by rewrite remove_scan_none. Qed.

(** Whatever the outcome, what is left is a sublist of the items. *)
Lemma remove_from_cart_sublist h n its :
  (remove_from_cart lower h its n).1.2 `sublist_of` its.
Proof.
  unfold remove_from_cart. destruct (remove_scan lower h n 0 its) as [[i x]|]; simpl.
  - apply sublist_delete.
  - done.
Qed.

Lemma find_product_Some h ps n r :
  find_product lower h ps n = Some r → r ∈ ps ∧ lower (name (h r)) = lower n.
Proof.
  induction ps as [|r' ps IH]; simpl; [done|].
  unfold name_matches. case_bool_decide as Hm.
  - intros [= ->]. split; [left|done].
  - intros Hf. destruct (IH Hf). split; [by right|done].
Qed.

(** The result depends on the lowered name only. *)
Lemma find_product_lower h ps n n' :
  lower n = lower n' → find_product lower h ps n = find_product lower h ps n'.
Proof.
  intros Heq. induction ps as [|r ps IH]; simpl; [done|].
  unfold name_matches. by rewrite Heq, IH.
Qed.

(** The result depends on the names of the catalog only. *)
Lemma find_product_names h h' ps n :
  Forall (λ r, name (h' r) = name (h r)) ps →
  find_product lower h' ps n = find_product lower h ps n.
Proof.
  induction 1 as [|r ps Hr _ IH]; simpl; [done|].
  unfold name_matches. by rewrite Hr, IH.
Qed.

Lemma find_product_app h ps ps' n :
  find_product lower h (ps ++ ps') n =
    match find_product lower h ps n with
    | Some r => Some r
    | None => find_product lower h ps' n
    end.
Proof.
  induction ps as [|r ps IH]; simpl; [done|].
  by destruct (name_matches lower h n r).
Qed.

Lemma find_product_None h ps n :
  find_product lower h ps n = None ↔
  Forall (λ r, lower (name (h r)) ≠ lower n) ps.
Proof.
  induction ps as [|r ps IH]; simpl; [by split|].
  unfold name_matches. case_bool_decide as Hm; split.
  - done.
  - inversion 1; subst. done.
  - intros Hf. constructor; [done|]. by apply IH.
  - inversion 1; subst. by apply IH.
Qed.

End ScanLemmas.

(** ** Runs *)

Section RunLemmas.

Variable float_sum : list float → float.
Variable lower : string → string.

Lemma reachable_run ok s ops :
  reachable float_sum lower ok s → run_ok float_sum lower ok s ops → reachable float_sum lower ok (run float_sum lower s ops).
Proof.
  revert s. induction ops as [|o ops IH]; intros s Hs Hok; simpl in *; [done|].
  destruct Hok as [Ho Hops]. apply IH; [|done]. by constructor.
Qed.

Lemma found_any s o : found_product float_sum lower s o → any_product s o.
Proof.
  destruct o; simpl; try done. intros [n' Hf].
  by destruct (find_product_Some lower _ _ _ _ Hf).
Qed.

(** What the customer menu can reach, any caller can reach. *)
Lemma reachable_found_any s :
  reachable float_sum lower (found_product float_sum lower) s → reachable float_sum lower any_product s.
Proof.
  induction 1 as [|s o _ IH Hok]; [constructor|].
  constructor; [done|]. by apply found_any.
Qed.

End RunLemmas.

Lemma seeded_reachable : reachable sum_left ascii_lower (found_product sum_left ascii_lower) seeded.
Proof. apply reachable_run; [constructor|]. simpl. done. Qed.


(** ** C1 *)

Lemma bulk_reachable :
  reachable sum_left ascii_lower (found_product sum_left ascii_lower) bulk.
Proof.
  apply reachable_run; [constructor|]. simpl. repeat split; [by exists "nail"|by exists "sand"].
Qed.

(** C1 (the code at the failing input). The manager adds "Nail" with stock
    5 and "Sand" with stock 2^1024; the customer puts 1 Nail and 2^1024
    Sand in the cart and checks out. The line of the Nail is printed and
    its stock goes from 5 to 4; the line of the Sand needs
    [price * quantity], whose conversion of 2^1024 to a float raises
    [OverflowError]: the stock of the Sand is not decremented, the cart is
    not emptied and still holds both items. *)
Theorem checkout_stops_half_way :
  reachable sum_left ascii_lower (found_product sum_left ascii_lower) bulk ∧
  items bulk = [mkCartItem 0%nat 1; mkCartItem 1%nat (2 ^ 1024)] ∧
  ∃ h',
    checkout sum_left (objs bulk) (items bulk) =
      (h', items bulk,
       [MsgFinalCheckout; MsgItemLine "Nail" 1 (float_of_Z 1)], RaisedOverflow) ∧
    stock (objs bulk 0%nat) = 5 ∧ stock (h' 0%nat) = 4 ∧
    stock (objs bulk 1%nat) = 2 ^ 1024 ∧ stock (h' 1%nat) = 2 ^ 1024.
Proof.
  split; [apply bulk_reachable|]. split; [reflexivity|].
  exists (checkout sum_left (objs bulk) (items bulk)).1.1.1.
  split; [vm_compute; reflexivity|]. vm_compute. by repeat split.
Qed.

(** ** C8 *)

(** C8. Checkout of an empty cart fails: its only effect is the line
    "Cart is empty!"; the object store, hence the stock of every product of
    the catalog, is the one before the call, and the cart is still empty. *)
Theorem checkout_empty_cart (float_sum : list float → float) (h : heap) :
  checkout float_sum h [] = (h, [], [MsgCartEmpty], Returned).
Proof. reflexivity. Qed.

(** ** C6 *)

(** C6. [add_product] with a price <= 0 or a stock < 0 fails: it returns
    [False] and the state, the catalog with it, is the one before the call;
    in particular the catalog has the same length. *)
Theorem add_product_rejects (s : State) (n : string) (p : float) (st : Z) :
  le_zero p = true ∨ st < 0 →
  ∃ out,
    add_product s n p st = (false, s, out) ∧
    length (products (add_product s n p st).1.2) = length (products s).
Proof.
  intros Hbad. unfold add_product.
  destruct (le_zero p) eqn:Hp; [by eexists|].
  destruct Hbad as [Hle|Hst]; [done|].
  apply Z.ltb_lt in Hst. rewrite Hst. by eexists.
Qed.

Lemma add_product_rejects_witness :
  ∃ out,
    add_product seeded "Pen" (float_of_Z (-5)) 3 = (false, seeded, out) ∧
    length (products (add_product seeded "Pen" (float_of_Z (-5)) 3).1.2) = length (products seeded).
Proof. apply add_product_rejects. left. by vm_compute. Defined.

(** ** C10 *)

Lemma filter_none {A} (P : A → Prop) `{!∀ x, Decision (P x)} (l : list A) :
  Forall (λ x, ¬ P x) l → filter P l = [].
Proof.
  induction 1 as [|a l Ha _ IH]; [done|]. by rewrite filter_cons_False.
Qed.

(** C10. In a cart with two or more items whose product names match the
    given name case-insensitively, [remove_from_cart] removes the first of
    them only: the cart is [pre ++ x :: post] with no match in [pre] and [x]
    matching, the call returns [True] and leaves [pre ++ post], so the other
    matching items (there is one in [post]) and the non-matching ones stay,
    in their order. *)
Theorem remove_from_cart_removes_first_only
    (lower : string → string) (h : heap) (its : list CartItem) (n : string) :
  (2 ≤ length (filter (λ item, name_matches lower h n (product item)) its))%nat →
  ∃ pre x post,
    its = pre ++ x :: post ∧
    Forall (λ item, name_matches lower h n (product item) = false) pre ∧
    name_matches lower h n (product x) = true ∧
    Exists (λ item, name_matches lower h n (product item) = true) post ∧
    remove_from_cart lower h its n =
      (true, pre ++ post, [MsgRemovedFromCart (item_name h x)]).
Proof.
  intros Hlen.
  destruct (first_match_split (λ item, name_matches lower h n (product item)) its)
    as [Hall|(pre & x & post & -> & Hpre & Hx)].
  - rewrite filter_none in Hlen by done. simpl in Hlen. lia.
  - assert (Hpre' : Forall (λ item, name_matches lower h n (product item) = false) pre).
    { eapply list.Forall_impl; [exact Hpre|]. intros item Hi. simpl in Hi.
      by destruct (name_matches lower h n (product item)). }
    assert (Hx' : name_matches lower h n (product x) = true).
    { by destruct (name_matches lower h n (product x)). }
    exists pre, x, post. repeat split; try done.
    + rewrite list.filter_app, filter_none, filter_cons_True in Hlen by done.
      simpl in Hlen.
      destruct (filter (λ item, name_matches lower h n (product item)) post)
        as [|y l] eqn:Hf; [simpl in Hlen; lia|].
      assert (Hy : y ∈ filter (λ item, name_matches lower h n (product item)) post)
        by (rewrite Hf; left).
      apply list_elem_of_filter in Hy as [Hy Hin].
      apply list.Exists_exists. exists y. split; [done|].
      by destruct (name_matches lower h n (product y)).
    + by apply remove_from_cart_first.
Qed.

Lemma remove_from_cart_removes_first_only_witness :
  ∃ pre x post,
    [mkCartItem 1%nat 1; mkCartItem 0%nat 2; mkCartItem 0%nat 3] = pre ++ x :: post ∧
    Forall (λ item, name_matches ascii_lower (objs seeded) "LAPTOP" (product item) = false) pre ∧
    name_matches ascii_lower (objs seeded) "LAPTOP" (product x) = true ∧
    Exists (λ item, name_matches ascii_lower (objs seeded) "LAPTOP" (product item) = true) post ∧
    remove_from_cart ascii_lower (objs seeded)
      [mkCartItem 1%nat 1; mkCartItem 0%nat 2; mkCartItem 0%nat 3] "LAPTOP" =
      (true, pre ++ post, [MsgRemovedFromCart (item_name (objs seeded) x)]).
Proof.
  apply (remove_from_cart_removes_first_only ascii_lower (objs seeded)
           [mkCartItem 1%nat 1; mkCartItem 0%nat 2; mkCartItem 0%nat 3] "LAPTOP").
  vm_compute. lia.
Defined.

(** ** C4 *)

(** It fails when the product is in the cart already: the add raises the
    quantity of its item, the remove takes the whole item out. With one
    Laptop in the cart, adding one more and removing "Laptop" leaves the
    cart empty. *)
Lemma add_remove_round_trip_fails : ¬ add_remove_round_trip sum_left ascii_lower.
Proof.
  intros Hclaim.
  specialize (Hclaim (exec sum_left ascii_lower seeded (OpAddToCart 0%nat 1)) 0%nat 1
                [mkCartItem 0%nat 2] [MsgAddedToCart 1 "Laptop"]).
  assert (Hfound : ∀ s', objs s' = objs seeded → products s' = products seeded →
            found_product sum_left ascii_lower s' (OpAddToCart 0%nat 1)).
  { intros s' Ho Hp. exists "laptop". by rewrite Ho, Hp. }
  discriminate Hclaim.
  - constructor; [apply seeded_reachable|]. by apply Hfound.
  - by apply Hfound.
  - reflexivity.
Qed.

(** C4 (amended). If no item of the cart has a name that matches the
    product's name case-insensitively, then a successful
    [add_to_cart(product, q)] followed by [remove_from_cart(product.name)]
    removes the item just added and restores the items the cart had before
    the add (no item if the cart was empty). *)
Theorem add_then_remove_restores
    (lower : string → string) (h : heap) (its its1 : list CartItem)
    (p : ref) (q : Z) (out : list message) :
  Forall (λ item, lower (item_name h item) ≠ lower (name (h p))) its →
  add_to_cart h its p q = (true, its1, out) →
  remove_from_cart lower h its1 (name (h p)) =
    (true, its, [MsgRemovedFromCart (name (h p))]).
Proof.
  intros Hnone Hadd.
  assert (Hexact : Forall (λ item, item_name h item ≠ name (h p)) its).
  { eapply list.Forall_impl; [exact Hnone|]. intros item Hi Heq. simpl in Hi.
    apply Hi. by rewrite Heq. }
  unfold add_to_cart in Hadd.
  destruct (q <=? 0); [discriminate|]. destruct (stock (h p) <? q); [discriminate|].
  rewrite add_to_cart_loop_fresh in Hadd by done. injection Hadd as <- _.
  rewrite (remove_from_cart_first lower h (name (h p)) its (mkCartItem p q) []).
  - by rewrite app_nil_r.
  - eapply list.Forall_impl; [exact Hnone|]. intros item Hi. simpl in Hi.
    unfold name_matches. by rewrite bool_decide_eq_false.
  - unfold name_matches. by rewrite bool_decide_eq_true.
Qed.

Lemma add_then_remove_restores_witness :
  remove_from_cart ascii_lower (objs seeded)
    [mkCartItem 1%nat 3; mkCartItem 0%nat 2] (name (objs seeded 0%nat)) =
    (true, [mkCartItem 1%nat 3], [MsgRemovedFromCart (name (objs seeded 0%nat))]).
Proof.
  apply (add_then_remove_restores ascii_lower (objs seeded) [mkCartItem 1%nat 3]
           [mkCartItem 1%nat 3; mkCartItem 0%nat 2] 0%nat 2 [MsgAddedToCart 2 "Laptop"]).
  - repeat constructor. by vm_compute.
  - reflexivity.
Defined.

(** ** The three outcomes of [add_to_cart] *)

Lemma add_to_cart_cases h its p q :
  (∃ out, add_to_cart h its p q = (false, its, out)) ∨
  (0 < q ∧ q ≤ stock (h p) ∧
   Forall (λ item, item_name h item ≠ name (h p)) its ∧
   add_to_cart h its p q =
     (true, its ++ [mkCartItem p q], [MsgAddedToCart q (name (h p))])) ∨
  (0 < q ∧ ∃ pre item post,
     its = pre ++ item :: post ∧
     Forall (λ item, item_name h item ≠ name (h p)) pre ∧
     item_name h item = name (h p) ∧
     quantity item + q ≤ stock (h p) ∧
     add_to_cart h its p q =
       (true, pre ++ mkCartItem (product item) (quantity item + q) :: post,
        [MsgAddedToCart q (name (h p))])).
Proof.
  unfold add_to_cart.
  destruct (Z.leb_spec q 0) as [Hq|Hq]; [left; by eexists|].
  destruct (Z.ltb_spec (stock (h p)) q) as [Hst|Hst]; [left; by eexists|].
  destruct (first_match_split (λ item, item_name h item = name (h p)) its)
    as [Hall|(pre & x & post & -> & Hpre & Hx)].
  - right; left. rewrite add_to_cart_loop_fresh by done. done.
  - rewrite add_to_cart_loop_present by done.
    destruct (Z.ltb_spec (stock (h p)) (quantity x + q)) as [Hsum|Hsum].
    + left. by eexists.
    + right; right. split; [done|]. by exists pre, x, post.
Qed.

(** ** Invariants of the reachable states *)

Lemma item_names_agree h h' (its : list CartItem) :
  (∀ item, item ∈ its → name (h' (product item)) = name (h (product item))) →
  item_name h' <$> its = item_name h <$> its.
Proof.
  induction its as [|a its IH]; intros Hagree; simpl; [done|].
  unfold item_name at 1 3. rewrite Hagree by left. f_equal.
  apply IH. intros item Hin. apply Hagree. by right.
Qed.

Lemma NoDup_item_refs h (its : list CartItem) :
  NoDup (item_name h <$> its) → NoDup (product <$> its).
Proof.
  intros Hnd. apply (NoDup_fmap_1 (λ r, name (h r))).
  by rewrite <- list_fmap_compose.
Qed.

Lemma wf_init : wf init.
Proof.
  split; simpl; try (intros ? Hin; by apply elem_of_nil in Hin). constructor.
Qed.

(** A new product leaves the objects of the catalog as they are. *)
Lemma add_product_old s n p st r :
  (∀ r, r ∈ products s → (r < next s)%nat) →
  r ∈ products s → objs (add_product s n p st).1.2 r = objs s r.
Proof.
  intros Halloc Hr. unfold add_product.
  destruct (le_zero p); [done|]. destruct (st <? 0); [done|]. simpl.
  unfold insert, fn_insert. rewrite decide_False; [done|].
  apply Halloc in Hr. lia.
Qed.

Lemma add_product_cases s n p st :
  (∃ out, add_product s n p st = (false, s, out)) ∨
  (le_zero p = false ∧ 0 ≤ st ∧
   add_product s n p st =
     (true,
      mkState (<[next s := mkProduct n p st]> (objs s)) (S (next s))
              (products s ++ [next s]) (items s),
      [MsgProductAdded n p st])).
Proof.
  unfold add_product. destruct (le_zero p) eqn:Hp; [left; by eexists|].
  destruct (Z.ltb_spec st 0) as [Hst|Hst]; [left; by eexists|].
  right. by repeat split.
Qed.

Lemma wf_add_product s n p st : wf s → wf (add_product s n p st).1.2.
Proof.
  intros Hwf. pose proof (add_product_old s n p st) as Hold.
  destruct (add_product_cases s n p st) as [[out ->]|(Hp & Hst & Heq)]; [done|].
  rewrite Heq in *. simpl in *. destruct Hwf as [Halloc Hrefs Hnames Hq Hprice].
  specialize (λ r, Hold r Halloc).
  split; simpl.
  - intros r [Hr| ->%list_elem_of_singleton]%elem_of_app; [apply Halloc in Hr|]; lia.
  - intros item Hin. apply elem_of_app. left. by apply Hrefs.
  - rewrite (item_names_agree (objs s)); [done|].
    intros item Hin. by rewrite Hold by by apply Hrefs.
  - done.
  - intros r [Hr| ->%list_elem_of_singleton]%elem_of_app.
    + rewrite Hold by done. by apply Hprice.
    + unfold insert, fn_insert. by rewrite decide_True.
Qed.

Lemma wf_add_to_cart s p q :
  wf s → p ∈ products s →
  wf (mkState (objs s) (next s) (products s) (add_to_cart (objs s) (items s) p q).1.2).
Proof.
  intros [Halloc Hrefs Hnames Hq Hprice] Hp.
  destruct (add_to_cart_cases (objs s) (items s) p q)
    as [[out ->]|[(Hq0 & Hst & Hall & ->)|(Hq0 & pre & x & post & Hits & Hpre & Hx & Hst & ->)]];
    simpl.
  - by split.
  - split; simpl; try done.
    + intros item [Hin| ->%list_elem_of_singleton]%elem_of_app; [by apply Hrefs|done].
    + rewrite fmap_app. apply NoDup_app. repeat split; [done| |apply NoDup_singleton].
      intros nm Hnm ->%list_elem_of_singleton.
      apply list_elem_of_fmap in Hnm as (item & Heq & Hin).
      rewrite Forall_forall in Hall. by apply (Hall item Hin).
    + intros item [Hin| ->%list_elem_of_singleton]%elem_of_app; [by apply Hq|done].
  - rewrite Hits in *. split; simpl; try done.
    + intros item Hin.
      apply elem_of_app in Hin as [Hin|Hin]; [apply Hrefs, elem_of_app; by left|].
      apply elem_of_cons in Hin as [->|Hin]; simpl.
      * apply (Hrefs x), elem_of_app. right. by left.
      * apply Hrefs, elem_of_app. right. by right.
    + by rewrite fmap_app, fmap_cons in *.
    + intros item Hin.
      apply elem_of_app in Hin as [Hin|Hin]; [apply Hq, elem_of_app; by left|].
      apply elem_of_cons in Hin as [->|Hin]; simpl.
      * assert (0 < quantity x); [|lia]. apply Hq, elem_of_app. right. by left.
      * apply Hq, elem_of_app. right. by right.
Qed.

Lemma wf_sublist s (its : list CartItem) :
  wf s → its `sublist_of` items s →
  wf (mkState (objs s) (next s) (products s) its).
Proof.
  intros [Halloc Hrefs Hnames Hq Hprice] Hsub.
  assert (Hin : ∀ item, item ∈ its → item ∈ items s).
  { intros item Hitem. by eapply elem_of_sublist. }
  split; simpl; auto.
  eapply sublist_NoDup; [exact Hnames|]. by apply fmap_sublist.
Qed.

Lemma exec_checkout float_sum lower s :
  exec float_sum lower s OpCheckout =
    mkState (checkout float_sum (objs s) (items s)).1.1.1 (next s) (products s)
            (checkout float_sum (objs s) (items s)).1.1.2.
Proof. simpl. by destruct (checkout float_sum (objs s) (items s)) as [[[h' its'] out] o]. Qed.

(** Whether [checkout] returns or raises, the state it leaves is well
    formed: the cart is empty or as it was, and no name or price changed. *)
Lemma wf_checkout float_sum s :
  wf s →
  wf (mkState (checkout float_sum (objs s) (items s)).1.1.1 (next s) (products s)
              (checkout float_sum (objs s) (items s)).1.1.2).
Proof.
  intros [Halloc Hrefs Hnames Hq Hprice]. rewrite checkout_heap.
  assert (Hprice' : ∀ r, r ∈ products s →
            le_zero (price ((checkout_loop (objs s) (items s)).1.1 r)) = false).
  { intros r Hr. rewrite checkout_loop_price. by apply Hprice. }
  destruct (checkout_outcome float_sum (objs s) (items s)) as [(_ & -> & _)|(_ & ->)].
  - split; simpl; try done.
    + intros ? Hin. by apply elem_of_nil in Hin.
    + constructor.
    + intros ? Hin. by apply elem_of_nil in Hin.
  - split; simpl; try done.
    rewrite (item_names_agree (objs s)); [done|].
    intros item _. apply checkout_loop_name.
Qed.

Lemma wf_exec float_sum lower s o : wf s → any_product s o → wf (exec float_sum lower s o).
Proof.
  intros Hwf Hok. destruct o as [n p st|r q|n| |].
  - by apply wf_add_product.
  - by apply wf_add_to_cart.
  - apply wf_sublist; [done|]. apply remove_from_cart_sublist.
  - rewrite exec_checkout. by apply wf_checkout.
  - apply wf_sublist; [done|]. apply sublist_nil_l.
Qed.

Lemma reachable_wf float_sum lower s : reachable float_sum lower any_product s → wf s.
Proof.
  induction 1 as [|s o _ IH Hok]; [apply wf_init|]. by apply wf_exec.
Qed.

(** ** Invariants of the customer menu *)

Lemma in_cart_quantity_bound h (its : list CartItem) r :
  NoDup (product <$> its) →
  (∀ item, item ∈ its → quantity item ≤ stock (h (product item))) →
  0 ≤ stock (h r) →
  in_cart_quantity its r ≤ stock (h r).
Proof.
  induction its as [|a its IH]; simpl; intros Hnd Hbound Hr; [done|].
  apply NoDup_cons in Hnd as [Hnotin Hnd].
  destruct (decide (product a = r)) as [<-|Hne].
  - rewrite in_cart_quantity_absent by done.
    specialize (Hbound a (list_elem_of_here _ _)). lia.
  - assert (in_cart_quantity its r ≤ stock (h r)); [|lia].
    apply IH; [done| |done]. intros item Hin. apply Hbound. by right.
Qed.

Section MenuInvariant.

Variable float_sum : list float → float.
Variable lower : string → string.

Lemma menu_inv_init : menu_inv lower init.
Proof. split; simpl; intros ? Hin; by apply elem_of_nil in Hin. Qed.

Lemma menu_inv_add_product s n p st :
  wf s → menu_inv lower s → menu_inv lower (add_product s n p st).1.2.
Proof.
  intros Hwf Hinv. pose proof (λ r, add_product_old s n p st r (wf_alloc s Hwf)) as Hold.
  destruct (add_product_cases s n p st) as [[out ->]|(Hp & Hst & Heq)]; [done|].
  rewrite Heq in *. simpl in *. destruct Hinv as [Hfound Hbound Hstock].
  split; simpl.
  - intros item Hin. unfold item_name. rewrite Hold by by apply (wf_refs s Hwf).
    rewrite find_product_app.
    rewrite (find_product_names lower (objs s)).
    + fold (item_name (objs s) item). by rewrite Hfound.
    + apply Forall_forall. intros r Hr. by rewrite Hold.
  - intros item Hin. rewrite Hold by by apply (wf_refs s Hwf). by apply Hbound.
  - intros r [Hr| ->%list_elem_of_singleton]%elem_of_app.
    + rewrite Hold by done. by apply Hstock.
    + unfold insert, fn_insert. by rewrite decide_True.
Qed.

Lemma menu_inv_add_to_cart s p q :
  menu_inv lower s → found_product float_sum lower s (OpAddToCart p q) →
  menu_inv lower (mkState (objs s) (next s) (products s) (add_to_cart (objs s) (items s) p q).1.2).
Proof.
  intros [Hfound Hbound Hstock] [n Hn].
  assert (Hp : find_product lower (objs s) (products s) (name (objs s p)) = Some p).
  { destruct (find_product_Some lower _ _ _ _ Hn) as [_ Hlow].
    by rewrite (find_product_lower lower _ _ _ n). }
  destruct (add_to_cart_cases (objs s) (items s) p q)
    as [[out ->]|[(Hq0 & Hst & Hall & ->)|(Hq0 & pre & x & post & Hits & Hpre & Hx & Hst & ->)]];
    simpl.
  - by split.
  - split; simpl; [| |done].
    + intros item [Hin| ->%list_elem_of_singleton]%elem_of_app; [by apply Hfound|done].
    + intros item [Hin| ->%list_elem_of_singleton]%elem_of_app; [by apply Hbound|done].
  - assert (Hxin : x ∈ items s).
    { rewrite Hits. apply elem_of_app. right. by left. }
    assert (Hxp : product x = p).
    { specialize (Hfound x Hxin). rewrite Hx, Hp in Hfound. congruence. }
    assert (Hsub : ∀ item, item ∈ pre ++ mkCartItem (product x) (quantity x + q) :: post →
              item ∈ items s ∨ item = mkCartItem (product x) (quantity x + q)).
    { intros item Hin. rewrite Hits.
      apply elem_of_app in Hin as [Hin|Hin]; [left; apply elem_of_app; by left|].
      apply elem_of_cons in Hin as [->|Hin]; [by right|].
      left. apply elem_of_app. right. by right. }
    split; simpl; [| |done].
    + intros item [Hin| ->]%Hsub; [by apply Hfound|]. by apply (Hfound x).
    + intros item [Hin| ->]%Hsub; [by apply Hbound|]. simpl. by rewrite Hxp.
Qed.

Lemma menu_inv_sublist s (its : list CartItem) :
  menu_inv lower s → its `sublist_of` items s →
  menu_inv lower (mkState (objs s) (next s) (products s) its).
Proof.
  intros [Hfound Hbound Hstock] Hsub.
  assert (Hin : ∀ item, item ∈ its → item ∈ items s).
  { intros item Hitem. by eapply elem_of_sublist. }
  split; simpl; auto.
Qed.

(** Whether [checkout] returns or raises, no stock of the catalog is
    negative afterwards. *)
Lemma checkout_stock_nonneg s r :
  wf s → menu_inv lower s → r ∈ products s →
  0 ≤ stock ((checkout_loop (objs s) (items s)).1.1 r).
Proof.
  intros Hwf [Hfound Hbound Hstock] Hr.
  pose proof (checkout_loop_stock_between (objs s) (items s) r (wf_quantity s Hwf)) as [Hlow _].
  assert (in_cart_quantity (items s) r ≤ stock (objs s r)); [|lia].
  apply in_cart_quantity_bound; [|done|by apply Hstock].
  apply (NoDup_item_refs (objs s)), (wf_names s Hwf).
Qed.

Lemma menu_inv_checkout s :
  wf s → menu_inv lower s →
  (checkout float_sum (objs s) (items s)).2 = Returned →
  menu_inv lower (mkState (checkout float_sum (objs s) (items s)).1.1.1 (next s) (products s)
                    (checkout float_sum (objs s) (items s)).1.1.2).
Proof.
  intros Hwf Hinv Hret. rewrite checkout_heap.
  destruct (checkout_outcome float_sum (objs s) (items s)) as [(_ & -> & _)|(Hraise & _)];
    [|congruence].
  split; simpl; try (intros ? Hin; by apply elem_of_nil in Hin).
  intros r Hr. by apply checkout_stock_nonneg.
Qed.

Lemma menu_inv_exec s o :
  wf s → menu_inv lower s → found_product float_sum lower s o → menu_inv lower (exec float_sum lower s o).
Proof.
  intros Hwf Hinv Hok. destruct o as [n p st|r q|n| |].
  - by apply menu_inv_add_product.
  - by apply menu_inv_add_to_cart.
  - apply menu_inv_sublist; [done|]. apply remove_from_cart_sublist.
  - rewrite exec_checkout. by apply menu_inv_checkout.
  - apply menu_inv_sublist; [done|]. apply sublist_nil_l.
Qed.

Lemma reachable_menu_inv s :
  reachable float_sum lower (found_product float_sum lower) s → menu_inv lower s.
Proof.
  induction 1 as [|s o Hs IH Hok]; [apply menu_inv_init|].
  apply menu_inv_exec; [|done..].
  by apply (reachable_wf float_sum lower), reachable_found_any.
Qed.

End MenuInvariant.

(** ** C2 *)

(** The name is not checked at all, so the invariants fail even in the runs
    of the program; a price that is NaN passes the test [price <= 0] and is
    not > 0; and when any catalog product may be passed to [add_to_cart],
    a stock can become negative. *)
Lemma product_invariants_fail :
  ¬ product_invariants sum_left ascii_lower (found_product sum_left ascii_lower) ∧
  (reachable sum_left ascii_lower (found_product sum_left ascii_lower)
     (run sum_left ascii_lower init nan_run) ∧
   0%nat ∈ products (run sum_left ascii_lower init nan_run) ∧
   gt_zero (price (objs (run sum_left ascii_lower init nan_run) 0%nat)) = false) ∧
  (reachable sum_left ascii_lower any_product (run sum_left ascii_lower init oversell_run) ∧
   0%nat ∈ products (run sum_left ascii_lower init oversell_run) ∧
   stock (objs (run sum_left ascii_lower init oversell_run) 0%nat) = -3).
Proof.
  split; [|split].
  - intros Hclaim.
    destruct (Hclaim (run sum_left ascii_lower init nameless_run) 0%nat) as [Hname _].
    + apply reachable_run; [constructor|]. by simpl.
    + by left.
    + by apply Hname.
  - split; [|split; [by left|reflexivity]].
    apply reachable_run; [constructor|]. by simpl.
  - split; [|split; [by left|reflexivity]].
    apply reachable_run; [constructor|].
    simpl. repeat split; [by left|right; by left].
Qed.

(** C2 (amended). In every state of a run of [add_product], [add_to_cart]
    on any catalog product, [remove_from_cart] and [checkout], every
    product of the catalog whose price is a number has a price > 0 (of a
    price that is NaN nothing is said); and in the runs of the program,
    where [add_to_cart] gets the product [find_product] returned and
    nothing follows a [checkout] that raised, every product of the catalog
    has a stock >= 0. Nothing is promised of the name: [add_product]
    accepts any text. *)
Theorem menu_products_valid
    (float_sum : list float → float) (lower : string → string) (s : State) (r : ref) :
  reachable float_sum lower any_product s →
  r ∈ products s →
  (is_nan (price (objs s r)) = false → gt_zero (price (objs s r)) = true) ∧
  (reachable float_sum lower (found_product float_sum lower) s → 0 ≤ stock (objs s r)).
Proof.
  intros Hs Hr. split.
  - intros Hnan. apply not_le_zero_gt_zero; [|done].
    by apply (wf_price s (reachable_wf float_sum lower s Hs)).
  - intros Hmenu. by apply (mi_stock lower s (reachable_menu_inv float_sum lower s Hmenu)).
Qed.

Lemma laptops_sold_reachable :
  reachable sum_left ascii_lower (found_product sum_left ascii_lower) laptops_sold.
Proof.
  apply reachable_run; [apply seeded_reachable|].
  simpl. repeat split. by exists "laptop".
Qed.

Lemma menu_products_valid_witness :
  (is_nan (price (objs laptops_sold 0%nat)) = false →
   gt_zero (price (objs laptops_sold 0%nat)) = true) ∧
  (reachable sum_left ascii_lower (found_product sum_left ascii_lower) laptops_sold →
   0 ≤ stock (objs laptops_sold 0%nat)).
Proof.
  apply (menu_products_valid sum_left ascii_lower laptops_sold 0%nat).
  - apply reachable_found_any, laptops_sold_reachable.
  - by left.
Defined.

(** ** C3 *)

Lemma one_item_per_lowered_name_fails : ¬ one_item_per_lowered_name sum_left ascii_lower.
Proof.
  intros Hclaim. specialize (Hclaim (run sum_left ascii_lower init two_cases_run)).
  assert (Hnd : NoDup ["a"; "a"]).
  { apply Hclaim. apply reachable_run; [constructor|].
    simpl. repeat split; [by left|right; by left]. }
  apply NoDup_cons in Hnd as [Hnotin _]. apply Hnotin. by left.
Qed.

Lemma NoDup_fmap_inj_on {A B} (f : A → B) (l : list A) x y :
  NoDup (f <$> l) → x ∈ l → y ∈ l → f x = f y → x = y.
Proof.
  induction l as [|a l IH]; simpl; intros Hnd Hx Hy Heq.
  - by apply elem_of_nil in Hx.
  - apply NoDup_cons in Hnd as [Hnotin Hnd].
    apply elem_of_cons in Hx as [->|Hx]; apply elem_of_cons in Hy as [->|Hy].
    + done.
    + exfalso. apply Hnotin. rewrite Heq. by apply list_elem_of_fmap_2.
    + exfalso. apply Hnotin. rewrite <- Heq. by apply list_elem_of_fmap_2.
    + by apply IH.
Qed.

(** C3 (amended). In every state of a run of [add_product], [add_to_cart]
    (on any catalog product), [remove_from_cart] and [checkout], the cart
    has at most one item per product name, names compared exactly as
    [add_to_cart] compares them, hence at most one item per product; and
    when the products passed to [add_to_cart] are those [find_product]
    returned, at most one item per name compared case-insensitively. *)
Theorem cart_one_item_per_name
    (float_sum : list float → float) (lower : string → string) (s : State) :
  reachable float_sum lower any_product s →
  NoDup (item_name (objs s) <$> items s) ∧
  NoDup (product <$> items s) ∧
  (reachable float_sum lower (found_product float_sum lower) s →
   NoDup ((λ item, lower (item_name (objs s) item)) <$> items s)).
Proof.
  intros Hs. pose proof (reachable_wf float_sum lower s Hs) as Hwf.
  pose proof (wf_names s Hwf) as Hnames.
  split; [done|]. split; [by apply (NoDup_item_refs (objs s))|].
  intros Hmenu. destruct (reachable_menu_inv float_sum lower s Hmenu) as [Hfound _ _].
  apply NoDup_fmap_2_strong; [|by apply NoDup_fmap_1 in Hnames].
  intros x y Hx Hy Hlow.
  apply (NoDup_fmap_inj_on (item_name (objs s)) (items s)); try done.
  assert (Hp : Some (product x) = Some (product y)).
  { rewrite <- (Hfound x Hx), <- (Hfound y Hy). by apply find_product_lower. }
  unfold item_name. congruence.
Qed.

Lemma two_items_reachable :
  reachable sum_left ascii_lower (found_product sum_left ascii_lower) two_items.
Proof.
  apply reachable_run; [apply seeded_reachable|].
  simpl. repeat split; [by exists "laptop"|by exists "MOUSE"|by exists "Laptop"].
Qed.

Lemma cart_one_item_per_name_witness :
  NoDup (item_name (objs two_items) <$> items two_items) ∧
  NoDup (product <$> items two_items) ∧
  (reachable sum_left ascii_lower (found_product sum_left ascii_lower) two_items →
   NoDup ((λ item, ascii_lower (item_name (objs two_items) item)) <$> items two_items)).
Proof.
  apply (cart_one_item_per_name sum_left ascii_lower two_items).
  apply reachable_found_any, two_items_reachable.
Defined.

(** ** C5 *)

(** [add_product] does not look for the name in the catalog. With "Laptop"
    at 1200.00 in it, a "laptop" at 1.00 is added, and [find_product] still
    returns the first one. *)
Lemma add_then_find_fails : ¬ add_then_find sum_left ascii_lower.
Proof.
  intros Hclaim.
  destruct (Hclaim seeded "laptop" (float_of_Z 1) 1 seeded_reachable) as (s' & out & r & Hadd & Hfind & Hprice & _);
    [done..|].
  injection Hadd as <- _. vm_compute in Hfind. injection Hfind as <-.
  vm_compute in Hprice. discriminate Hprice.
Qed.

(** C5 (amended). In every state of a run, [add_product(name, price, stock)]
    with price > 0 and stock >= 0 succeeds and lengthens the catalog by one
    product. If no product of the catalog had a name equal to [name]
    case-insensitively, [find_product(name)] then returns the new product,
    with that name, price and stock; otherwise it returns the product it
    returned before, which is unchanged. *)
Theorem add_product_then_find
    (float_sum : list float → float) (lower : string → string)
    (s : State) (n : string) (p : float) (st : Z) :
  reachable float_sum lower any_product s →
  gt_zero p = true → 0 ≤ st →
  ∃ s' out,
    add_product s n p st = (true, s', out) ∧
    length (products s') = S (length (products s)) ∧
    (find_product lower (objs s) (products s) n = None →
     ∃ r, find_product lower (objs s') (products s') n = Some r ∧
          objs s' r = mkProduct n p st) ∧
    (∀ r0, find_product lower (objs s) (products s) n = Some r0 →
     find_product lower (objs s') (products s') n = Some r0 ∧
     objs s' r0 = objs s r0).
Proof.
  intros Hs Hp Hst. pose proof (reachable_wf float_sum lower s Hs) as Hwf.
  pose proof (λ r, add_product_old s n p st r (wf_alloc s Hwf)) as Hold.
  destruct (add_product_cases s n p st) as [[out Hrej]|(_ & _ & Heq)].
  { exfalso. unfold add_product in Hrej.
    rewrite (gt_zero_not_le_zero p Hp) in Hrej.
    destruct (Z.ltb_spec st 0); [lia|discriminate]. }
  rewrite Heq in *. simpl in Hold. eexists _, _. split; [reflexivity|]. simpl.
  assert (Hsame : find_product lower (<[next s := mkProduct n p st]> (objs s)) (products s) n
                  = find_product lower (objs s) (products s) n).
  { apply find_product_names, Forall_forall. intros r Hr. by rewrite Hold. }
  split; [rewrite length_app; simpl; lia|]. split.
  - intros Hnone. exists (next s). rewrite find_product_app, Hsame, Hnone. simpl.
    unfold name_matches, insert, fn_insert. rewrite decide_True by done. simpl.
    by rewrite bool_decide_eq_true_2.
  - intros r0 Hsome. rewrite find_product_app, Hsame, Hsome. split; [done|].
    apply Hold. by destruct (find_product_Some lower _ _ _ _ Hsome).
Qed.

Lemma add_product_then_find_witness :
  ∃ s' out,
    add_product seeded "Pen" (float_of_Z 2) 7 = (true, s', out) ∧
    length (products s') = S (length (products seeded)) ∧
    (find_product ascii_lower (objs seeded) (products seeded) "Pen" = None →
     ∃ r, find_product ascii_lower (objs s') (products s') "Pen" = Some r ∧
          objs s' r = mkProduct "Pen" (float_of_Z 2) 7) ∧
    (∀ r0, find_product ascii_lower (objs seeded) (products seeded) "Pen" = Some r0 →
     find_product ascii_lower (objs s') (products s') "Pen" = Some r0 ∧
     objs s' r0 = objs seeded r0).
Proof.
  apply (add_product_then_find sum_left ascii_lower seeded "Pen" (float_of_Z 2) 7).
  - apply reachable_found_any, seeded_reachable.
  - reflexivity.
  - lia.
Defined.

(** ** C7 *)

Lemma in_cart_quantity_app its its' r :
  in_cart_quantity (its ++ its') r = in_cart_quantity its r + in_cart_quantity its' r.
Proof. induction its as [|a its IH]; simpl; [done|]. rewrite IH. lia. Qed.

Lemma in_cart_quantity_other_names h its p :
  Forall (λ item, item_name h item ≠ name (h p)) its → in_cart_quantity its p = 0.
Proof.
  intros Hall. apply in_cart_quantity_absent.
  intros (item & -> & Hin)%list_elem_of_fmap.
  rewrite Forall_forall in Hall. by apply (Hall item Hin).
Qed.

(** C7. In every state of a run, [add_to_cart(product, quantity)] with a
    quantity <= 0, or with a quantity that added to what the cart holds of
    the product exceeds the product's stock, fails: it returns [False] and
    the items of the cart are the ones before the call. *)
Theorem add_to_cart_rejects
    (float_sum : list float → float) (lower : string → string)
    (s : State) (p : ref) (q : Z) :
  reachable float_sum lower any_product s →
  q ≤ 0 ∨ stock (objs s p) < in_cart_quantity (items s) p + q →
  ∃ out, add_to_cart (objs s) (items s) p q = (false, items s, out).
Proof.
  intros Hs Hbad. pose proof (reachable_wf float_sum lower s Hs) as Hwf.
  destruct (add_to_cart_cases (objs s) (items s) p q)
    as [Hrej|[(Hq0 & Hst & Hall & _)|(Hq0 & pre & x & post & Hits & Hpre & Hx & Hst & _)]];
    [done|exfalso..].
  - rewrite (in_cart_quantity_other_names (objs s)) in Hbad by done. lia.
  - pose proof (wf_names s Hwf) as Hnames. rewrite Hits in Hnames, Hbad.
    rewrite fmap_app, fmap_cons in Hnames.
    apply NoDup_app in Hnames as (_ & _ & [Hnotin _]%NoDup_cons).
    assert (Hpost : Forall (λ item, item_name (objs s) item ≠ name (objs s p)) post).
    { apply Forall_forall. intros item Hin Heq. apply Hnotin.
      rewrite Hx, <- Heq. by apply list_elem_of_fmap_2. }
    rewrite in_cart_quantity_app in Hbad. simpl in Hbad.
    rewrite (in_cart_quantity_other_names (objs s) pre),
      (in_cart_quantity_other_names (objs s) post) in Hbad by done.
    assert (0 < quantity x).
    { apply (wf_quantity s Hwf). rewrite Hits. apply elem_of_app. right. by left. }
    destruct Hbad as [?|Hbad]; [lia|].
    destruct (decide (product x = p)); lia.
Qed.

Lemma add_to_cart_rejects_witness :
  ∃ out,
    add_to_cart (objs two_items) (items two_items) 0%nat 3 = (false, items two_items, out).
Proof.
  apply (add_to_cart_rejects sum_left ascii_lower two_items 0%nat 3).
  - apply reachable_found_any, two_items_reachable.
  - right. by vm_compute.
Defined.

(** ** C9 *)

(** C9. In every state of a run, [add_to_cart], whether it succeeds or
    fails, leaves the object store and the catalog as they are; and of the
    calls of a run only [checkout] changes the stock of a catalog product:
    [add_product], [add_to_cart], [remove_from_cart] and a new cart leave
    the stock of every product of the catalog as it was. *)
Theorem only_checkout_changes_stock
    (float_sum : list float → float) (lower : string → string) (s : State) :
  reachable float_sum lower any_product s →
  (∀ p q, objs (exec float_sum lower s (OpAddToCart p q)) = objs s ∧
          products (exec float_sum lower s (OpAddToCart p q)) = products s) ∧
  (∀ o r, o ≠ OpCheckout → r ∈ products s →
          stock (objs (exec float_sum lower s o) r) = stock (objs s r)).
Proof.
  intros Hs. pose proof (reachable_wf float_sum lower s Hs) as Hwf. repeat split.
  intros o r Hne Hr. destruct o as [n p st|p q|n| |]; simpl; try done.
  by rewrite (add_product_old s n p st r (wf_alloc s Hwf)).
Qed.

Lemma only_checkout_changes_stock_witness :
  (∀ p q, objs (exec sum_left ascii_lower two_items (OpAddToCart p q)) = objs two_items ∧
          products (exec sum_left ascii_lower two_items (OpAddToCart p q)) = products two_items) ∧
  (∀ o r, o ≠ OpCheckout → r ∈ products two_items →
          stock (objs (exec sum_left ascii_lower two_items o) r) = stock (objs two_items r)).
Proof.
  apply (only_checkout_changes_stock sum_left ascii_lower two_items).
  apply reachable_found_any, two_items_reachable.
Defined.

(** * Further properties of the code *)

(** ** [Cart.add_to_cart] *)

(** X1. A product whose name no item of the cart has, added with a quantity
    between 1 and its stock, gets a new item at the end of the cart; the
    items before it are as they were. *)
Theorem add_to_cart_appends_new (h : heap) (its : list CartItem) (p : ref) (q : Z) :
  0 < q → q ≤ stock (h p) →
  Forall (λ item, item_name h item ≠ name (h p)) its →
  add_to_cart h its p q =
    (true, its ++ [mkCartItem p q], [MsgAddedToCart q (name (h p))]).
Proof.
  intros Hq Hst Hall. unfold add_to_cart.
  destruct (Z.leb_spec q 0); [lia|]. destruct (Z.ltb_spec (stock (h p)) q); [lia|].
  by apply add_to_cart_loop_fresh.
Qed.

Lemma add_to_cart_appends_new_witness :
  add_to_cart (objs seeded) [mkCartItem 1%nat 3] 0%nat 2 =
    (true, [mkCartItem 1%nat 3] ++ [mkCartItem 0%nat 2],
     [MsgAddedToCart 2 (name (objs seeded 0%nat))]).
Proof.
  apply (add_to_cart_appends_new (objs seeded) [mkCartItem 1%nat 3] 0%nat 2).
  - lia.
  - by vm_compute.
  - repeat constructor. by vm_compute.
Defined.

(** X2. When the cart has an item with the product's name, the first such
    item takes the added quantity where it stands, provided the sum stays
    within the product's stock; no item is added and no other item
    changes. *)
Theorem add_to_cart_merges_existing
    (h : heap) (pre post : list CartItem) (x : CartItem) (p : ref) (q : Z) :
  0 < q → q ≤ stock (h p) →
  Forall (λ item, item_name h item ≠ name (h p)) pre →
  item_name h x = name (h p) →
  quantity x + q ≤ stock (h p) →
  add_to_cart h (pre ++ x :: post) p q =
    (true, pre ++ mkCartItem (product x) (quantity x + q) :: post,
     [MsgAddedToCart q (name (h p))]).
Proof.
  intros Hq Hst Hpre Hx Hsum. unfold add_to_cart.
  destruct (Z.leb_spec q 0); [lia|]. destruct (Z.ltb_spec (stock (h p)) q); [lia|].
  rewrite add_to_cart_loop_present by done.
  destruct (Z.ltb_spec (stock (h p)) (quantity x + q)); [lia|done].
Qed.

Lemma add_to_cart_merges_existing_witness :
  add_to_cart (objs seeded) ([mkCartItem 1%nat 3] ++ mkCartItem 0%nat 2 :: []) 0%nat 3 =
    (true, [mkCartItem 1%nat 3] ++ mkCartItem 0%nat (2 + 3) :: [],
     [MsgAddedToCart 3 (name (objs seeded 0%nat))]).
Proof.
  apply (add_to_cart_merges_existing (objs seeded) [mkCartItem 1%nat 3] []
           (mkCartItem 0%nat 2) 0%nat 3).
  - lia.
  - by vm_compute.
  - repeat constructor. by vm_compute.
  - reflexivity.
  - by vm_compute.
Defined.

(** ** [Cart.remove_from_cart] *)

(** X3. [remove_from_cart] returns [True] exactly when some item of the
    cart has a name that matches case-insensitively; it then leaves one
    item less, and otherwise leaves the cart as it is. *)
Theorem remove_from_cart_found_iff
    (lower : string → string) (h : heap) (its : list CartItem) (n : string) :
  ((remove_from_cart lower h its n).1.1 = true ↔
   ∃ item, item ∈ its ∧ lower (item_name h item) = lower n) ∧
  ((remove_from_cart lower h its n).1.1 = true →
   S (length (remove_from_cart lower h its n).1.2) = length its) ∧
  ((remove_from_cart lower h its n).1.1 = false →
   remove_from_cart lower h its n = (false, its, [MsgNotInCart])).
Proof.
  destruct (first_match_split (λ item, lower (item_name h item) = lower n) its)
    as [Hall|(pre & x & post & -> & Hpre & Hx)].
  - assert (Hnone : Forall (λ item, name_matches lower h n (product item) = false) its).
    { eapply list.Forall_impl; [exact Hall|]. intros item Hi. simpl in Hi.
      unfold name_matches. by rewrite bool_decide_eq_false. }
    rewrite remove_from_cart_none by done. simpl. repeat split; try done.
    intros (item & Hin & Hm). rewrite Forall_forall in Hall. by destruct (Hall item Hin).
  - assert (Hnone : Forall (λ item, name_matches lower h n (product item) = false) pre).
    { eapply list.Forall_impl; [exact Hpre|]. intros item Hi. simpl in Hi.
      unfold name_matches. by rewrite bool_decide_eq_false. }
    rewrite remove_from_cart_first; [|done|].
    + simpl. repeat split; try done.
      * intros _. exists x. split; [|done]. apply elem_of_app. right. by left.
      * intros _. rewrite !length_app. simpl. lia.
    + unfold name_matches. by rewrite bool_decide_eq_true.
Qed.

(** ** [Store.find_product] *)

(** X4. [find_product] returns a product exactly when it is the first
    product of the catalog, in insertion order, whose name matches
    case-insensitively; and [None] exactly when no product matches. *)
Theorem find_product_first_match
    (lower : string → string) (h : heap) (ps : list ref) (n : string) :
  (∀ r, find_product lower h ps n = Some r ↔
        ∃ pre post, ps = pre ++ r :: post ∧
          Forall (λ r', lower (name (h r')) ≠ lower n) pre ∧
          lower (name (h r)) = lower n) ∧
  (find_product lower h ps n = None ↔
   Forall (λ r', lower (name (h r')) ≠ lower n) ps).
Proof.
  split; [|apply find_product_None].
  intros r. split.
  - induction ps as [|r' ps IH]; simpl; [done|].
    unfold name_matches. case_bool_decide as Hm.
    + intros [= ->]. by exists [], ps.
    + intros Hf. destruct (IH Hf) as (pre & post & -> & Hpre & Hr).
      exists (r' :: pre), post. repeat split; [|done]. by constructor.
  - intros (pre & post & -> & Hpre & Hr). rewrite find_product_app.
    apply find_product_None in Hpre. rewrite Hpre. simpl.
    unfold name_matches. by rewrite bool_decide_eq_true_2.
Qed.

(** X5. [find_product] does not see the case of the name it is given: two
    names with the same lowering find the same product. *)
Theorem find_product_case_insensitive
    (lower : string → string) (h : heap) (ps : list ref) (n n' : string) :
  lower n = lower n' →
  find_product lower h ps n = find_product lower h ps n'.
Proof. apply find_product_lower. Qed.

Lemma find_product_case_insensitive_witness :
  find_product ascii_lower (objs seeded) (products seeded) "LAPTOP" =
  find_product ascii_lower (objs seeded) (products seeded) "laptop".
Proof.
  apply (find_product_case_insensitive ascii_lower (objs seeded) (products seeded)
           "LAPTOP" "laptop").
  reflexivity.
Defined.

(** ** [Store.add_product] *)

(** X6. Adding a product never changes what [find_product] finds: a name
    that found a product before an [add_product] finds the same product
    after it, with the same name, price and stock. A later product of the
    same name stays out of reach of [find_product]. *)
Theorem add_product_keeps_lookups
    (float_sum : list float → float) (lower : string → string)
    (s : State) (n : string) (p : float) (st : Z)
    (m : string) (r : ref) :
  reachable float_sum lower any_product s →
  find_product lower (objs s) (products s) m = Some r →
  find_product lower (objs (add_product s n p st).1.2)
               (products (add_product s n p st).1.2) m = Some r ∧
  objs (add_product s n p st).1.2 r = objs s r.
Proof.
  intros Hs Hfind. pose proof (reachable_wf float_sum lower s Hs) as Hwf.
  pose proof (λ r, add_product_old s n p st r (wf_alloc s Hwf)) as Hold.
  split; [|apply Hold; by destruct (find_product_Some lower _ _ _ _ Hfind)].
  destruct (add_product_cases s n p st) as [[out Heq]|(_ & _ & Heq)];
    rewrite Heq in *; simpl in *; [done|].
  rewrite find_product_app, (find_product_names lower (objs s)), Hfind; [done|].
  apply Forall_forall. intros r' Hr'. by rewrite Hold.
Qed.

Lemma add_product_keeps_lookups_witness :
  find_product ascii_lower (objs (add_product seeded "laptop" (float_of_Z 1) 1).1.2)
               (products (add_product seeded "laptop" (float_of_Z 1) 1).1.2) "laptop" = Some 0%nat ∧
  objs (add_product seeded "laptop" (float_of_Z 1) 1).1.2 0%nat = objs seeded 0%nat.
Proof.
  apply (add_product_keeps_lookups sum_left ascii_lower seeded "laptop" (float_of_Z 1) 1 "laptop" 0%nat).
  - apply reachable_found_any, seeded_reachable.
  - reflexivity.
Defined.


(** ** [Cart.checkout] on any cart *)

Lemma in_cart_quantity_NoDup (its : list CartItem) item :
  NoDup (product <$> its) → item ∈ its →
  in_cart_quantity its (product item) = quantity item.
Proof.
  induction its as [|a its IH]; simpl; intros Hnd Hin.
  - by apply elem_of_nil in Hin.
  - apply NoDup_cons in Hnd as [Hnotin Hnd].
    apply elem_of_cons in Hin as [->|Hin].
    + rewrite decide_True by done. rewrite in_cart_quantity_absent by done. lia.
    + rewrite decide_False.
      * rewrite IH by done. lia.
      * intros Heq. apply Hnotin. rewrite Heq. by apply list_elem_of_fmap_2.
Qed.

(** A line total depends on the price and the quantity only. *)
Lemma get_total_price_prices h h' item :
  (∀ r, price (h' r) = price (h r)) → get_total_price h' item = get_total_price h item.
Proof. intros Hp. unfold get_total_price. by rewrite Hp. Qed.

Lemma line_totals_prices h h' (its : list CartItem) :
  (∀ r, price (h' r) = price (h r)) →
  mapM (get_total_price h') its = mapM (get_total_price h) its.
Proof.
  intros Hp. induction its as [|a its IH]; simpl; [done|].
  by rewrite (get_total_price_prices h h' a Hp), IH.
Qed.

Lemma total_price_prices float_sum h h' (its : list CartItem) :
  (∀ r, price (h' r) = price (h r)) →
  total_price float_sum h' its = total_price float_sum h its.
Proof. intros Hp. unfold total_price. by rewrite (line_totals_prices h h' its Hp). Qed.

Lemma get_total_price_None h item :
  get_total_price h item = None ↔ float_of_int (quantity item) = None.
Proof. unfold get_total_price. by destruct (float_of_int (quantity item)). Qed.

(** When the line totals of a cart cannot all be taken, there is a first
    item whose quantity does not convert to a float. *)
Lemma line_totals_None h (its : list CartItem) :
  mapM (get_total_price h) its = None →
  ∃ pre x post totals,
    its = pre ++ x :: post ∧
    mapM (get_total_price h) pre = Some totals ∧
    float_of_int (quantity x) = None.
Proof.
  induction its as [|a its IH]; simpl; [done|].
  destruct (get_total_price h a) as [t|] eqn:Ha; simpl.
  - destruct (mapM (get_total_price h) its) as [ts|]; simpl; [done|]. intros _.
    destruct IH as (pre & x & post & totals & -> & Hpre & Hx); [done|].
    exists (a :: pre), x, post, (t :: totals). split_and!; [done| |done].
    simpl. by rewrite Ha, Hpre.
  - intros _. exists [], a, its, []. split_and!; [done..|]. by apply (get_total_price_None h).
Qed.

(** The line totals of a cart can all be taken when every quantity
    converts to a float. *)
Lemma line_totals_Some h (its : list CartItem) :
  Forall (λ item, float_of_int (quantity item) ≠ None) its →
  is_Some (mapM (get_total_price h) its).
Proof.
  induction 1 as [|a its Ha _ [ts Hts]]; simpl; [by eexists|].
  destruct (get_total_price h a) as [t|] eqn:Hta.
  - rewrite Hts. simpl. by eexists.
  - by apply get_total_price_None in Hta.
Qed.

(** The loop of [checkout], from the line totals: it ends by itself when
    they can all be taken, with one line per item. *)
Lemma checkout_loop_returned h0 h (its : list CartItem) totals :
  (∀ r, name (h r) = name (h0 r)) → (∀ r, price (h r) = price (h0 r)) →
  mapM (get_total_price h0) its = Some totals →
  (checkout_loop h its).2 = Returned ∧
  (checkout_loop h its).1.2 = zip_with (receipt_line h0) its totals.
Proof.
  revert h totals. induction its as [|a its IH]; intros h totals Hn Hp; simpl.
  - by intros [= <-].
  - rewrite (get_total_price_prices h0 h a Hp).
    destruct (get_total_price h0 a) as [t|]; [|done]. simpl.
    destruct (mapM (get_total_price h0) its) as [ts|] eqn:Hts; [|done]. simpl.
    intros [= <-].
    destruct (IH (decrement_stock h (product a) (quantity a)) ts) as [Ho Hout]; try done.
    + intros r. by rewrite decrement_stock_name.
    + intros r. by rewrite decrement_stock_price.
    + destruct (checkout_loop _ its) as [[h' out] o]. simpl in *.
      split; [done|]. unfold receipt_line at 1, item_name. by rewrite Hn, Hout.
Qed.

(** The loop of [checkout] stops at the first item whose quantity does not
    convert to a float: the items before it have their line and their
    decrement, that item and the ones after it have neither. *)
Lemma checkout_loop_raised h0 h (pre post : list CartItem) x totals :
  (∀ r, name (h r) = name (h0 r)) → (∀ r, price (h r) = price (h0 r)) →
  mapM (get_total_price h0) pre = Some totals →
  float_of_int (quantity x) = None →
  (checkout_loop h (pre ++ x :: post)).2 = RaisedOverflow ∧
  (checkout_loop h (pre ++ x :: post)).1.2 = zip_with (receipt_line h0) pre totals ∧
  ∀ r, stock ((checkout_loop h (pre ++ x :: post)).1.1 r) = stock (h r) - in_cart_quantity pre r.
Proof.
  revert h totals. induction pre as [|a pre IH]; intros h totals Hn Hp; simpl.
  - intros [= <-] Hx. unfold get_total_price. rewrite Hx. simpl.
    split_and!; try done. intros r. lia.
  - rewrite (get_total_price_prices h0 h a Hp).
    destruct (get_total_price h0 a) as [t|]; [|done]. simpl.
    destruct (mapM (get_total_price h0) pre) as [ts|] eqn:Hts; [|done]. simpl.
    intros [= <-] Hx.
    destruct (IH (decrement_stock h (product a) (quantity a)) ts) as (Ho & Hout & Hst); try done.
    + intros r. by rewrite decrement_stock_name.
    + intros r. by rewrite decrement_stock_price.
    + destruct (checkout_loop _ (pre ++ x :: post)) as [[h' out] o]. simpl in *.
      split_and!; [done| |].
      * unfold receipt_line at 1, item_name. by rewrite Hn, Hout.
      * intros r. rewrite Hst, decrement_stock_stock. lia.
Qed.

(** X7. Checkout of a cart of any length that returns, in any state of a
    run: the cart is empty afterwards, the product of every item has lost
    exactly the quantity of that item and kept its name and price, and the
    products that are not in the cart are untouched. *)
Theorem checkout_decrements_each_item
    (float_sum : list float → float) (lower : string → string) (s : State) :
  reachable float_sum lower any_product s →
  (checkout float_sum (objs s) (items s)).2 = Returned →
  (checkout float_sum (objs s) (items s)).1.1.2 = [] ∧
  (∀ item, item ∈ items s →
     (checkout float_sum (objs s) (items s)).1.1.1 (product item) =
       mkProduct (name (objs s (product item))) (price (objs s (product item)))
                 (stock (objs s (product item)) - quantity item)) ∧
  (∀ r, r ∉ product <$> items s →
     (checkout float_sum (objs s) (items s)).1.1.1 r = objs s r).
Proof.
  intros Hs Hret. pose proof (reachable_wf float_sum lower s Hs) as Hwf.
  rewrite checkout_heap.
  destruct (checkout_outcome float_sum (objs s) (items s)) as [(_ & Hits & Hloop)|(Hraise & _)];
    [|congruence].
  split_and!; [done| |].
  - intros item Hin.
    rewrite <- (checkout_loop_name (objs s) (items s) (product item)),
      <- (checkout_loop_price (objs s) (items s) (product item)),
      <- (in_cart_quantity_NoDup (items s) item),
      <- (checkout_loop_stock (objs s) (items s) (product item));
      [|done|by eapply NoDup_item_refs, wf_names|done].
    by destruct ((checkout_loop (objs s) (items s)).1.1 (product item)).
  - intros r Hr. by apply checkout_loop_untouched.
Qed.

Lemma checkout_decrements_each_item_witness :
  (checkout sum_left (objs two_items) (items two_items)).1.1.2 = [] ∧
  (∀ item, item ∈ items two_items →
     (checkout sum_left (objs two_items) (items two_items)).1.1.1 (product item) =
       mkProduct (name (objs two_items (product item)))
                 (price (objs two_items (product item)))
                 (stock (objs two_items (product item)) - quantity item)) ∧
  (∀ r, r ∉ product <$> items two_items →
     (checkout sum_left (objs two_items) (items two_items)).1.1.1 r = objs two_items r).
Proof.
  apply (checkout_decrements_each_item sum_left ascii_lower two_items).
  - apply reachable_found_any, two_items_reachable.
  - by vm_compute.
Defined.

(** X8. The receipt of a checkout that returns: after the heading, one line
    per item in the order of the cart, with the name, the quantity and the
    line total [price * quantity] taken before any decrement, then the
    amount due, which is what [total_price] gave before the checkout. *)
Theorem checkout_receipt (float_sum : list float → float) (h : heap) (its : list CartItem) :
  its ≠ [] →
  (checkout float_sum h its).2 = Returned →
  ∃ totals t,
    mapM (get_total_price h) its = Some totals ∧
    total_price float_sum h its = Some t ∧
    (checkout float_sum h its).1.2 =
      MsgFinalCheckout :: zip_with (receipt_line h) its totals
        ++ [MsgTotalDue t; MsgThankYou].
Proof.
  intros Hne Hret. destruct its as [|a its]; [done|]. clear Hne.
  destruct (mapM (get_total_price h) (a :: its)) as [totals|] eqn:Htot.
  - destruct (checkout_loop_returned h h (a :: its) totals) as [Ho Hout]; try done.
    assert (Hp : ∀ r, price ((checkout_loop h (a :: its)).1.1 r) = price (h r))
      by (intros r; apply checkout_loop_price).
    pose proof (total_price_prices float_sum h _ (a :: its) Hp) as Htp.
    unfold checkout in *.
    destruct (checkout_loop h (a :: its)) as [[h' out] o]. simpl in Ho, Hout, Htp. subst o.
    rewrite Htp in *.
    assert (is_Some (total_price float_sum h (a :: its))) as [t Ht].
    { unfold total_price. rewrite Htot. by destruct totals. }
    rewrite Ht in *. exists totals, t. simpl. by rewrite Hout.
  - exfalso.
    destruct (line_totals_None h (a :: its) Htot) as (pre & y & post & totals & Heq & Hpre & Hy).
    destruct (checkout_loop_raised h h pre post y totals) as (Ho & _ & _); try done.
    rewrite <- Heq in Ho.
    destruct (checkout_outcome float_sum h (a :: its)) as [(_ & _ & Hloop)|(Hraise & _)];
      congruence.
Qed.

Lemma checkout_receipt_witness :
  ∃ totals t,
    mapM (get_total_price (objs seeded)) [mkCartItem 0%nat 2; mkCartItem 1%nat 3] = Some totals ∧
    total_price sum_left (objs seeded) [mkCartItem 0%nat 2; mkCartItem 1%nat 3] = Some t ∧
    (checkout sum_left (objs seeded) [mkCartItem 0%nat 2; mkCartItem 1%nat 3]).1.2 =
      MsgFinalCheckout
        :: zip_with (receipt_line (objs seeded)) [mkCartItem 0%nat 2; mkCartItem 1%nat 3] totals
        ++ [MsgTotalDue t; MsgThankYou].
Proof.
  apply (checkout_receipt sum_left (objs seeded) [mkCartItem 0%nat 2; mkCartItem 1%nat 3]);
    [done|by vm_compute].
Defined.

Lemma line_totals_Some_inv h (its : list CartItem) totals :
  mapM (get_total_price h) its = Some totals →
  Forall (λ item, float_of_int (quantity item) ≠ None) its.
Proof.
  revert totals. induction its as [|a its IH]; intros totals; simpl; [by constructor|].
  destruct (get_total_price h a) as [t|] eqn:Ha; [|done]. simpl.
  destruct (mapM (get_total_price h) its) as [ts|]; [|done]. intros _.
  constructor; [|by eapply IH]. intros Hnone.
  apply (get_total_price_None h) in Hnone. congruence.
Qed.

Lemma checkout_returns float_sum h (its : list CartItem) totals :
  mapM (get_total_price h) its = Some totals →
  (checkout float_sum h its).2 = Returned.
Proof.
  intros Htot. destruct its as [|a its]; [done|].
  destruct (checkout_loop_returned h h (a :: its) totals) as [Ho _]; try done.
  assert (Hp : ∀ r, price ((checkout_loop h (a :: its)).1.1 r) = price (h r))
    by (intros r; apply checkout_loop_price).
  pose proof (total_price_prices float_sum h _ (a :: its) Hp) as Htp.
  unfold checkout. destruct (checkout_loop h (a :: its)) as [[h' out] o].
  simpl in Ho, Htp. subst o. rewrite Htp. unfold total_price. rewrite Htot.
  by destruct totals.
Qed.

Lemma checkout_raises float_sum h (pre post : list CartItem) x totals :
  mapM (get_total_price h) pre = Some totals →
  float_of_int (quantity x) = None →
  (checkout float_sum h (pre ++ x :: post)).2 = RaisedOverflow ∧
  (checkout float_sum h (pre ++ x :: post)).1.2 =
    MsgFinalCheckout :: zip_with (receipt_line h) pre totals.
Proof.
  intros Hpre Hx.
  destruct (checkout_loop_raised h h pre post x totals) as (Ho & Hout & _); try done.
  unfold checkout. destruct (pre ++ x :: post) as [|a l] eqn:Heq.
  { by destruct pre. }
  destruct (checkout_loop h (a :: l)) as [[h' out] o]. simpl in Ho, Hout. subst o.
  simpl. by rewrite Hout.
Qed.

(** X22. [checkout] returns exactly when the quantity of every item of the
    cart converts to a float, that is, is within the float range; if not,
    it is left by the [OverflowError] of [price * quantity]. *)
Theorem checkout_returns_iff (float_sum : list float → float) (h : heap) (its : list CartItem) :
  ((checkout float_sum h its).2 = Returned ↔
   Forall (λ item, float_of_int (quantity item) ≠ None) its) ∧
  ((checkout float_sum h its).2 = Returned ∨ (checkout float_sum h its).2 = RaisedOverflow).
Proof.
  split.
  - split.
    + intros Hret. destruct (mapM (get_total_price h) its) as [totals|] eqn:Htot.
      * by eapply line_totals_Some_inv.
      * destruct (line_totals_None h its Htot) as (pre & x & post & totals & -> & Hpre & Hx).
        destruct (checkout_raises float_sum h pre post x totals Hpre Hx) as [Ho _].
        congruence.
    + intros Hall. destruct (line_totals_Some h its Hall) as [totals Htot].
      by eapply checkout_returns.
  - destruct (checkout_outcome float_sum h its) as [(? & _)|(? & _)]; by eauto.
Qed.

(** X23. [checkout] on a cart whose first item with a quantity beyond the
    float range is [x], after the items [pre]: it is left by
    [OverflowError] with the heading and the lines of [pre] printed, each
    product has lost what [pre] holds of it and nothing more, names and
    prices are as before, and the cart is not cleared; neither the amount
    due nor the thanks are printed. *)
Theorem checkout_raises_half_way
    (float_sum : list float → float) (h : heap) (pre post : list CartItem) (x : CartItem) :
  Forall (λ item, float_of_int (quantity item) ≠ None) pre →
  float_of_int (quantity x) = None →
  (checkout float_sum h (pre ++ x :: post)).2 = RaisedOverflow ∧
  (checkout float_sum h (pre ++ x :: post)).1.1.2 = pre ++ x :: post ∧
  (∃ totals,
     mapM (get_total_price h) pre = Some totals ∧
     (checkout float_sum h (pre ++ x :: post)).1.2 =
       MsgFinalCheckout :: zip_with (receipt_line h) pre totals) ∧
  (∀ r,
     name ((checkout float_sum h (pre ++ x :: post)).1.1.1 r) = name (h r) ∧
     price ((checkout float_sum h (pre ++ x :: post)).1.1.1 r) = price (h r) ∧
     stock ((checkout float_sum h (pre ++ x :: post)).1.1.1 r) =
       stock (h r) - in_cart_quantity pre r).
Proof.
  intros Hpre Hx. destruct (line_totals_Some h pre Hpre) as [totals Htot].
  destruct (checkout_raises float_sum h pre post x totals Htot Hx) as [Ho Hout].
  destruct (checkout_loop_raised h h pre post x totals) as (_ & _ & Hst); try done.
  split_and!; [done| |by exists totals|].
  - destruct (checkout_outcome float_sum h (pre ++ x :: post)) as [(? & _)|(_ & ?)];
      [congruence|done].
  - intros r. rewrite checkout_heap, checkout_loop_name, checkout_loop_price. by rewrite Hst.
Qed.

Lemma checkout_raises_half_way_witness :
  (checkout sum_left (objs bulk) ([mkCartItem 0%nat 1] ++ mkCartItem 1%nat (2 ^ 1024) :: [])).2
    = RaisedOverflow ∧
  (checkout sum_left (objs bulk) ([mkCartItem 0%nat 1] ++ mkCartItem 1%nat (2 ^ 1024) :: [])).1.1.2
    = [mkCartItem 0%nat 1] ++ mkCartItem 1%nat (2 ^ 1024) :: [] ∧
  (∃ totals,
     mapM (get_total_price (objs bulk)) [mkCartItem 0%nat 1] = Some totals ∧
     (checkout sum_left (objs bulk)
        ([mkCartItem 0%nat 1] ++ mkCartItem 1%nat (2 ^ 1024) :: [])).1.2 =
       MsgFinalCheckout :: zip_with (receipt_line (objs bulk)) [mkCartItem 0%nat 1] totals) ∧
  (∀ r,
     name ((checkout sum_left (objs bulk)
              ([mkCartItem 0%nat 1] ++ mkCartItem 1%nat (2 ^ 1024) :: [])).1.1.1 r)
       = name (objs bulk r) ∧
     price ((checkout sum_left (objs bulk)
              ([mkCartItem 0%nat 1] ++ mkCartItem 1%nat (2 ^ 1024) :: [])).1.1.1 r)
       = price (objs bulk r) ∧
     stock ((checkout sum_left (objs bulk)
              ([mkCartItem 0%nat 1] ++ mkCartItem 1%nat (2 ^ 1024) :: [])).1.1.1 r) =
       stock (objs bulk r) - in_cart_quantity [mkCartItem 0%nat 1] r).
Proof.
  apply (checkout_raises_half_way sum_left (objs bulk) [mkCartItem 0%nat 1] []
           (mkCartItem 1%nat (2 ^ 1024))).
  - repeat constructor. by vm_compute.
  - by vm_compute.
Defined.

(** ** [Cart.view_cart] *)

Lemma view_cart_loop_returned h (its : list CartItem) totals :
  mapM (get_total_price h) its = Some totals →
  view_cart_loop h its = (zip_with (cart_line h) its totals, Returned).
Proof.
  revert totals. induction its as [|a its IH]; intros totals; simpl.
  - by intros [= <-].
  - destruct (get_total_price h a) as [t|]; [|done]. simpl.
    destruct (mapM (get_total_price h) its) as [ts|] eqn:Hts; [|done]. simpl.
    intros [= <-]. by rewrite (IH ts).
Qed.

Lemma view_cart_loop_raised h (pre post : list CartItem) x totals :
  mapM (get_total_price h) pre = Some totals →
  float_of_int (quantity x) = None →
  view_cart_loop h (pre ++ x :: post) = (zip_with (cart_line h) pre totals, RaisedOverflow).
Proof.
  revert totals. induction pre as [|a pre IH]; intros totals; simpl.
  - intros [= <-] Hx. unfold get_total_price. by rewrite Hx.
  - destruct (get_total_price h a) as [t|]; [|done]. simpl.
    destruct (mapM (get_total_price h) pre) as [ts|] eqn:Hts; [|done]. simpl.
    intros [= <-] Hx. by rewrite (IH ts).
Qed.

(** [view_cart] returns or is left by [OverflowError]. *)
Lemma view_cart_outcome float_sum h (its : list CartItem) :
  (view_cart float_sum h its).2 = Returned ∨ (view_cart float_sum h its).2 = RaisedOverflow.
Proof.
  destruct its as [|a its]; [by left|].
  destruct (mapM (get_total_price h) (a :: its)) as [totals|] eqn:Htot.
  - left. unfold view_cart. rewrite (view_cart_loop_returned h (a :: its) totals Htot).
    unfold total_price. rewrite Htot. by destruct totals.
  - right. destruct (line_totals_None h (a :: its) Htot) as (pre & x & post & totals & Heq & Hpre & Hx).
    unfold view_cart. rewrite Heq.
    destruct (pre ++ x :: post) as [|b l] eqn:Heq'; [by destruct pre|].
    rewrite <- Heq'. by rewrite (view_cart_loop_raised h pre post x totals Hpre Hx).
Qed.

(** X9. What [view_cart] shows is what [checkout] then charges. On a cart
    that is not empty [view_cart] ends as [checkout] would, by returning or
    by [OverflowError]; and when they return, the item lines of both carry
    the same names, quantities and line totals in the same order, and the
    total shown last by [view_cart] is the amount due on the receipt. *)
Theorem view_cart_agrees_with_checkout
    (float_sum : list float → float) (h : heap) (its : list CartItem) :
  its ≠ [] →
  (view_cart float_sum h its).2 = (checkout float_sum h its).2 ∧
  ((checkout float_sum h its).2 = Returned →
   ∃ totals t,
     (view_cart float_sum h its).1 =
       ShowCartHeader :: zip_with (cart_line h) its totals ++ [ShowCartTotal t] ∧
     (checkout float_sum h its).1.2 =
       MsgFinalCheckout :: zip_with (receipt_line h) its totals
         ++ [MsgTotalDue t; MsgThankYou]).
Proof.
  intros Hne. destruct (mapM (get_total_price h) its) as [totals|] eqn:Htot.
  - pose proof (checkout_returns float_sum h its totals Htot) as Hret.
    assert (is_Some (total_price float_sum h its)) as [t Ht].
    { unfold total_price. rewrite Htot. by destruct totals. }
    assert (Hview : view_cart float_sum h its =
              (ShowCartHeader :: zip_with (cart_line h) its totals ++ [ShowCartTotal t], Returned)).
    { destruct its as [|a its]; [done|]. unfold view_cart.
      by rewrite (view_cart_loop_returned h (a :: its) totals Htot), Ht. }
    rewrite Hview, Hret. split; [done|]. intros _.
    destruct (checkout_receipt float_sum h its Hne Hret) as (totals' & t' & Htot' & Ht' & Hout).
    exists totals, t. split; [done|]. rewrite Hout. congruence.
  - destruct (line_totals_None h its Htot) as (pre & x & post & totals & -> & Hpre & Hx).
    destruct (checkout_raises float_sum h pre post x totals Hpre Hx) as [Ho _].
    rewrite Ho. split; [|done]. unfold view_cart.
    destruct (pre ++ x :: post) as [|a l] eqn:Heq; [by destruct pre|].
    rewrite <- Heq. by rewrite (view_cart_loop_raised h pre post x totals Hpre Hx).
Qed.

Lemma view_cart_agrees_with_checkout_witness :
  (view_cart sum_left (objs bulk) (items bulk)).2 = (checkout sum_left (objs bulk) (items bulk)).2 ∧
  ((checkout sum_left (objs bulk) (items bulk)).2 = Returned →
   ∃ totals t,
     (view_cart sum_left (objs bulk) (items bulk)).1 =
       ShowCartHeader :: zip_with (cart_line (objs bulk)) (items bulk) totals
         ++ [ShowCartTotal t] ∧
     (checkout sum_left (objs bulk) (items bulk)).1.2 =
       MsgFinalCheckout :: zip_with (receipt_line (objs bulk)) (items bulk) totals
         ++ [MsgTotalDue t; MsgThankYou]).
Proof.
  apply (view_cart_agrees_with_checkout sum_left (objs bulk) (items bulk)). by vm_compute.
Defined.

(** ** [Store.list_products] *)

Lemma list_products_loop_lookup h i (ps : list ref) k :
  list_products_loop h i ps !! k =
    (λ r, ShowProduct (i + k) (name (h r)) (price (h r)) (stock (h r))) <$> ps !! k.
Proof.
  revert i k. induction ps as [|r ps IH]; intros i k; simpl; [done|].
  destruct k as [|k]; simpl.
  - by rewrite Nat.add_0_r.
  - rewrite IH. by rewrite Nat.add_succ_r.
Qed.

Lemma list_products_loop_length h i (ps : list ref) :
  length (list_products_loop h i ps) = length ps.
Proof. revert i. induction ps as [|r ps IH]; intros i; simpl; [done|]. by rewrite IH. Qed.

(** X10. [list_products] numbers the products from 1 in the order of the
    catalog: the product at position [k] (from 0) is shown on line [k + 1]
    under the number [k + 1], with its name, price and stock; the listing
    has one line more than the catalog has products (the heading, or the
    notice that there is no product). *)
Theorem list_products_numbering (h : heap) (ps : list ref) (k : nat) (r : ref) :
  ps !! k = Some r →
  list_products h ps !! S k =
    Some (ShowProduct (S k) (name (h r)) (price (h r)) (stock (h r))) ∧
  length (list_products h ps) = S (length ps).
Proof.
  intros Hk. destruct ps as [|r0 ps]; [done|]. unfold list_products. split.
  - change ((ShowProductsHeader :: list_products_loop h 1 (r0 :: ps)) !! S k)
      with (list_products_loop h 1 (r0 :: ps) !! k).
    by rewrite list_products_loop_lookup, Hk.
  - simpl. by rewrite list_products_loop_length.
Qed.

Lemma list_products_numbering_witness :
  list_products (objs seeded) (products seeded) !! 2%nat =
    Some (ShowProduct 2 (name (objs seeded 1%nat)) (price (objs seeded 1%nat))
                      (stock (objs seeded 1%nat))) ∧
  length (list_products (objs seeded) (products seeded)) = S (length (products seeded)).
Proof.
  apply (list_products_numbering (objs seeded) (products seeded) 1%nat 1%nat).
  reflexivity.
Defined.

(** ** What no call changes *)

(** X11. In every state of a run, whatever call comes next: the catalog
    keeps its products and only grows at the end, every product of the
    catalog keeps its name and its price, and no stock goes up. *)
Theorem exec_keeps_products
    (float_sum : list float → float) (lower : string → string) (s : State) (o : op) :
  reachable float_sum lower any_product s →
  products s `prefix_of` products (exec float_sum lower s o) ∧
  ∀ r, r ∈ products s →
    name (objs (exec float_sum lower s o) r) = name (objs s r) ∧
    price (objs (exec float_sum lower s o) r) = price (objs s r) ∧
    stock (objs (exec float_sum lower s o) r) ≤ stock (objs s r).
Proof.
  intros Hs. pose proof (reachable_wf float_sum lower s Hs) as Hwf.
  destruct o as [n p st|p q|n| |].
  - split.
    + simpl. destruct (add_product_cases s n p st) as [[out ->]|(_ & _ & ->)]; simpl;
        [done|by apply prefix_app_r].
    + intros r Hr. simpl. rewrite (add_product_old s n p st r (wf_alloc s Hwf) Hr).
      repeat split; lia.
  - simpl. split; [done|]. intros r _. repeat split; lia.
  - simpl. split; [done|]. intros r _. repeat split; lia.
  - rewrite exec_checkout. simpl. split; [done|]. intros r _.
    rewrite checkout_heap, checkout_loop_name, checkout_loop_price.
    repeat split; try done.
    apply (checkout_loop_stock_between (objs s) (items s) r (wf_quantity s Hwf)).
  - simpl. split; [done|]. intros r _. repeat split; lia.
Qed.

Lemma exec_keeps_products_witness :
  products two_items `prefix_of` products (exec sum_left ascii_lower two_items OpCheckout) ∧
  ∀ r, r ∈ products two_items →
    name (objs (exec sum_left ascii_lower two_items OpCheckout) r) = name (objs two_items r) ∧
    price (objs (exec sum_left ascii_lower two_items OpCheckout) r) = price (objs two_items r) ∧
    stock (objs (exec sum_left ascii_lower two_items OpCheckout) r) ≤ stock (objs two_items r).
Proof.
  apply (exec_keeps_products sum_left ascii_lower two_items OpCheckout).
  apply reachable_found_any, two_items_reachable.
Defined.

(** ** The cart of the customer menu *)

(** X12. When the products put in the cart are those [find_product]
    returned, every item of the cart is for a product of the catalog, the
    one [find_product] returns for the item's name, and its quantity is at
    least 1 and at most the stock of that product. *)
Theorem cart_quantities_within_stock
    (float_sum : list float → float) (lower : string → string)
    (s : State) (item : CartItem) :
  reachable float_sum lower (found_product float_sum lower) s →
  item ∈ items s →
  product item ∈ products s ∧
  find_product lower (objs s) (products s) (item_name (objs s) item) = Some (product item) ∧
  0 < quantity item ∧ quantity item ≤ stock (objs s (product item)).
Proof.
  intros Hs Hin.
  pose proof (reachable_wf float_sum lower s (reachable_found_any float_sum lower s Hs)) as Hwf.
  destruct (reachable_menu_inv float_sum lower s Hs) as [Hfound Hbound _].
  repeat split.
  - by apply (wf_refs s Hwf).
  - by apply Hfound.
  - by apply (wf_quantity s Hwf).
  - by apply Hbound.
Qed.

Lemma cart_quantities_within_stock_witness :
  product (mkCartItem 0%nat 3) ∈ products two_items ∧
  find_product ascii_lower (objs two_items) (products two_items)
    (item_name (objs two_items) (mkCartItem 0%nat 3)) = Some (product (mkCartItem 0%nat 3)) ∧
  0 < quantity (mkCartItem 0%nat 3) ∧
  quantity (mkCartItem 0%nat 3) ≤ stock (objs two_items (product (mkCartItem 0%nat 3))).
Proof.
  apply (cart_quantities_within_stock sum_left ascii_lower two_items (mkCartItem 0%nat 3)).
  - apply two_items_reachable.
  - by left.
Defined.

Lemma found_product_own_name lower s p n :
  find_product lower (objs s) (products s) n = Some p →
  find_product lower (objs s) (products s) (name (objs s p)) = Some p.
Proof.
  intros Hn. destruct (find_product_Some lower _ _ _ _ Hn) as [_ Hlow].
  by rewrite (find_product_lower lower _ _ _ n).
Qed.

(** In the cart of the customer menu, the item that has the name of a found
    product is the item of that product. *)
Lemma menu_item_of_product lower s p n x :
  menu_inv lower s →
  find_product lower (objs s) (products s) n = Some p →
  x ∈ items s → item_name (objs s) x = name (objs s p) → product x = p.
Proof.
  intros [Hfound _ _] Hn Hx Hname. specialize (Hfound x Hx).
  rewrite Hname, (found_product_own_name lower s p n Hn) in Hfound. congruence.
Qed.

(** The cart holds of a product what its one item says. *)
Lemma in_cart_quantity_split h pre x post p :
  NoDup (item_name h <$> pre ++ x :: post) →
  item_name h x = name (h p) →
  in_cart_quantity (pre ++ x :: post) p = if decide (product x = p) then quantity x else 0.
Proof.
  intros Hnames Hx. rewrite fmap_app, fmap_cons in Hnames.
  apply NoDup_app in Hnames as (_ & Hpre & [Hnotin _]%NoDup_cons).
  rewrite in_cart_quantity_app. simpl.
  rewrite (in_cart_quantity_other_names h pre), (in_cart_quantity_other_names h post).
  - lia.
  - apply Forall_forall. intros item Hin Heq. apply Hnotin.
    rewrite Hx, <- Heq. by apply list_elem_of_fmap_2.
  - apply Forall_forall. intros item Hin Heq.
    apply (Hpre (item_name h item)); [by apply list_elem_of_fmap_2|].
    rewrite Heq, <- Hx. by left.
Qed.

(** X13. In the customer menu, [add_to_cart] of a found product succeeds
    exactly when the quantity is positive and, added to what the cart holds
    of the product, does not exceed the stock; the cart then holds that
    much more of the product, and as much as before of every other one. *)
Theorem add_to_cart_succeeds_iff
    (float_sum : list float → float) (lower : string → string)
    (s : State) (n : string) (p : ref) (q : Z) :
  reachable float_sum lower (found_product float_sum lower) s →
  find_product lower (objs s) (products s) n = Some p →
  ((add_to_cart (objs s) (items s) p q).1.1 = true ↔
   0 < q ∧ in_cart_quantity (items s) p + q ≤ stock (objs s p)) ∧
  ((add_to_cart (objs s) (items s) p q).1.1 = true →
   ∀ r, in_cart_quantity (add_to_cart (objs s) (items s) p q).1.2 r =
        in_cart_quantity (items s) r + (if decide (r = p) then q else 0)).
Proof.
  intros Hs Hn.
  pose proof (reachable_wf float_sum lower s (reachable_found_any float_sum lower s Hs)) as Hwf.
  pose proof (reachable_menu_inv float_sum lower s Hs) as Hinv.
  pose proof (in_cart_quantity_nonneg (items s) p (wf_quantity s Hwf)) as Hnonneg.
  unfold add_to_cart.
  destruct (Z.leb_spec q 0) as [Hq|Hq]; [simpl; split; [split|]; [done|lia|done]|].
  destruct (Z.ltb_spec (stock (objs s p)) q) as [Hst|Hst];
    [simpl; split; [split|]; [done|lia|done]|].
  destruct (first_match_split (λ item, item_name (objs s) item = name (objs s p)) (items s))
    as [Hall|(pre & x & post & Hits & Hpre & Hx)].
  - rewrite add_to_cart_loop_fresh by done. simpl.
    rewrite (in_cart_quantity_other_names (objs s)) by done.
    split; [split; [lia|done]|]. intros _ r.
    rewrite in_cart_quantity_app. simpl.
    destruct (decide (p = r)), (decide (r = p)); try congruence; lia.
  - pose proof (wf_names s Hwf) as Hnames. rewrite Hits in Hnames |- *.
    assert (Hxp : product x = p).
    { apply (menu_item_of_product lower s p n x); try done.
      rewrite Hits. apply elem_of_app. right. by left. }
    rewrite add_to_cart_loop_present by done.
    rewrite (in_cart_quantity_split (objs s) pre x post p) by done.
    rewrite decide_True by done.
    destruct (Z.ltb_spec (stock (objs s p)) (quantity x + q)) as [Hsum|Hsum]; simpl.
    + split; [split; [done|lia]|done].
    + split; [split; [lia|done]|]. intros _ r.
      rewrite !in_cart_quantity_app. simpl. rewrite Hxp.
      destruct (decide (p = r)), (decide (r = p)); try congruence; lia.
Qed.

Lemma add_to_cart_succeeds_iff_witness :
  ((add_to_cart (objs two_items) (items two_items) 0%nat 2).1.1 = true ↔
   0 < 2 ∧ in_cart_quantity (items two_items) 0%nat + 2 ≤ stock (objs two_items 0%nat)) ∧
  ((add_to_cart (objs two_items) (items two_items) 0%nat 2).1.1 = true →
   ∀ r, in_cart_quantity (add_to_cart (objs two_items) (items two_items) 0%nat 2).1.2 r =
        in_cart_quantity (items two_items) r + (if decide (r = 0%nat) then 2 else 0)).
Proof.
  apply (add_to_cart_succeeds_iff sum_left ascii_lower two_items "laptop" 0%nat 2).
  - apply two_items_reachable.
  - reflexivity.
Defined.


(** ** The menus *)

(** A call on the cart leaves the catalog, the names and the prices as they
    are, and raises no stock, whether it returns or not. *)
Lemma exec_cart_op float_sum lower s o :
  wf s → (∀ n p st, o ≠ OpAddProduct n p st) →
  products (exec float_sum lower s o) = products s ∧
  ∀ r, name (objs (exec float_sum lower s o) r) = name (objs s r) ∧
       price (objs (exec float_sum lower s o) r) = price (objs s r) ∧
       stock (objs (exec float_sum lower s o) r) ≤ stock (objs s r).
Proof.
  intros Hwf Hop. destruct o as [n p st|p q|n| |].
  - by destruct (Hop n p st).
  - simpl. split; [done|]. intros r. repeat split; lia.
  - simpl. split; [done|]. intros r. repeat split; lia.
  - rewrite exec_checkout. simpl. split; [done|]. intros r.
    rewrite checkout_heap, checkout_loop_name, checkout_loop_price.
    repeat split; try done.
    apply (checkout_loop_stock_between (objs s) (items s) r (wf_quantity s Hwf)).
  - simpl. split; [done|]. intros r. repeat split; lia.
Qed.

Lemma Forall_suffix_of {A} (P : A → Prop) (l l' : list A) :
  Forall P l → l' `suffix_of` l → Forall P l'.
Proof. intros Hall [k ->]. by apply Forall_app in Hall as [_ ?]. Qed.

Section MenuLemmas.

Variable float_sum : list float → float.
Variable lower : string → string.
Variable strip : string → string.
Variable to_float : string → option float.
Variable to_int : string → option Z.

Local Ltac solve_suffix :=
  repeat first [done | reflexivity | apply suffix_nil | apply suffix_cons_r].

(** [add_products_menu] keeps whatever [add_product] keeps, returns or is
    left by [EOFError], and leaves unread an end of its input. *)
Lemma add_products_menu_spec (P : State → Prop) :
  (∀ s n p st, P s → lower n ≠ "done" → P (add_product s n p st).1.2) →
  ∀ k inputs s, (length inputs ≤ k)%nat → P s →
    P (state (add_products_menu lower to_float to_int s inputs)) ∧
    (how (add_products_menu lower to_float to_int s inputs) = Returned ∨
     how (add_products_menu lower to_float to_int s inputs) = RaisedEOF) ∧
    unread (add_products_menu lower to_float to_int s inputs) `suffix_of` inputs.
Proof.
  intros Hstep. induction k as [|k IH]; intros inputs s Hlen HP.
  - destruct inputs; [|simpl in Hlen; lia]. simpl. split_and!; eauto.
  - destruct inputs as [|n rest]; [simpl; split_and!; eauto|]. simpl in Hlen.
    assert (Hrec : ∀ s' ins, (length ins ≤ k)%nat → ins `suffix_of` rest → P s' →
              P (state (add_products_menu lower to_float to_int s' ins)) ∧
              (how (add_products_menu lower to_float to_int s' ins) = Returned ∨
               how (add_products_menu lower to_float to_int s' ins) = RaisedEOF) ∧
              unread (add_products_menu lower to_float to_int s' ins) `suffix_of` n :: rest).
    { intros s' ins Hl Hsuf HP'. destruct (IH ins s' Hl HP') as (H1 & H2 & H3).
      split_and!; try done. apply suffix_cons_r. by etrans. }
    cbn [add_products_menu]. case_decide as Hdone.
    { simpl. split_and!; eauto; solve_suffix. }
    destruct rest as [|price_line rest2]; [simpl; split_and!; eauto; solve_suffix|].
    simpl in Hlen. destruct (to_float price_line) as [p|].
    2:{ apply Hrec; [lia|solve_suffix|done]. }
    destruct rest2 as [|stock_line rest3]; [simpl; split_and!; eauto; solve_suffix|].
    simpl in Hlen. destruct (to_int stock_line) as [st|].
    + apply Hrec; [lia|solve_suffix|by apply Hstep].
    + apply Hrec; [lia|solve_suffix|done].
Qed.

Lemma ends_from_here (P : State → Prop) res :
  P (state res) → ends_from float_sum lower P res.
Proof. intros HP. split; [done|]. exists (state res). by eauto. Qed.

(** The loop of [customer_menu] keeps whatever the calls on the cart keep,
    ends by itself or by an exception, and leaves unread an end of its
    input. *)
Lemma customer_loop_spec (P : State → Prop) :
  (∀ s o, P s → found_product float_sum lower s o → (∀ n p st, o ≠ OpAddProduct n p st) →
          P (exec float_sum lower s o)) →
  ∀ k inputs s, (length inputs ≤ k)%nat → P s →
    ends_from float_sum lower P (customer_loop float_sum lower strip to_int s inputs) ∧
    how (customer_loop float_sum lower strip to_int s inputs) ≠ NoFuel ∧
    unread (customer_loop float_sum lower strip to_int s inputs) `suffix_of` inputs.
Proof.
  intros Hstep. induction k as [|k IH]; intros inputs s Hlen HP.
  - destruct inputs; [|simpl in Hlen; lia]. simpl. split_and!; [by apply ends_from_here|done..].
  - destruct inputs as [|line rest]; [simpl; split_and!; [by apply ends_from_here|done..]|].
    simpl in Hlen.
    assert (Hrec : ∀ s' ins, (length ins ≤ k)%nat → ins `suffix_of` rest → P s' →
              ends_from float_sum lower P (customer_loop float_sum lower strip to_int s' ins) ∧
              how (customer_loop float_sum lower strip to_int s' ins) ≠ NoFuel ∧
              unread (customer_loop float_sum lower strip to_int s' ins) `suffix_of` line :: rest).
    { intros s' ins Hl Hsuf HP'. destruct (IH ins s' Hl HP') as (H1 & H2 & H3).
      split_and!; try done. apply suffix_cons_r. by etrans. }
    assert (Hhere : ∀ o ins, o ≠ NoFuel → ins `suffix_of` line :: rest →
              ends_from float_sum lower P (mkResult o s ins) ∧ how (mkResult o s ins) ≠ NoFuel ∧
              unread (mkResult o s ins) `suffix_of` line :: rest).
    { intros o ins Ho Hsuf. split_and!; [by apply ends_from_here|done..]. }
    cbn [customer_loop]. cbv zeta. case_decide as H1.
    { destruct rest as [|product_name rest2]; [apply Hhere; solve_suffix|].
      simpl in Hlen.
      destruct (find_product lower (objs s) (products s) product_name) as [r|] eqn:Hfind.
      2:{ apply Hrec; [lia|solve_suffix|done]. }
      destruct rest2 as [|quantity_line rest3]; [apply Hhere; solve_suffix|].
      simpl in Hlen. destruct (to_int quantity_line) as [q|].
      - apply Hrec; [lia|solve_suffix|]. apply Hstep; [done|by exists product_name|done].
      - apply Hrec; [lia|solve_suffix|done]. }
    case_decide as H2.
    { destruct rest as [|product_name rest2]; [apply Hhere; solve_suffix|].
      simpl in Hlen. apply Hrec; [lia|solve_suffix|]. by apply Hstep. }
    case_decide as H3.
    { destruct (view_cart_outcome float_sum (objs s) (items s)) as [-> | ->].
      - apply Hrec; [lia|solve_suffix|done].
      - apply Hhere; solve_suffix. }
    case_decide as H4.
    { cbn [state how unread].
      destruct (checkout_outcome float_sum (objs s) (items s)) as [(Hret & _)|(Hraise & _)].
      - rewrite Hret. split_and!; [|done|solve_suffix].
        apply ends_from_here. cbn [state]. by apply (Hstep s OpCheckout).
      - rewrite Hraise. split_and!; [|done|solve_suffix].
        split; [done|]. exists s. by eauto. }
    case_decide as H5; [apply Hhere; solve_suffix|].
    apply Hrec; [lia|solve_suffix|done].
Qed.

Lemma customer_menu_spec (P : State → Prop) (s : State) (inputs : list string) :
  (∀ s o, P s → found_product float_sum lower s o → (∀ n p st, o ≠ OpAddProduct n p st) →
          P (exec float_sum lower s o)) →
  P s →
  ends_from float_sum lower P (customer_menu float_sum lower strip to_int s inputs) ∧
  how (customer_menu float_sum lower strip to_int s inputs) ≠ NoFuel ∧
  unread (customer_menu float_sum lower strip to_int s inputs) `suffix_of` inputs.
Proof.
  intros Hstep HP. unfold customer_menu.
  apply (customer_loop_spec P Hstep (length inputs)); [done|]. by apply Hstep.
Qed.

(** [manager_menu] keeps whatever [add_product] keeps, is never left by
    [OverflowError], and leaves unread an end of its input. *)
Lemma manager_menu_spec (P : State → Prop) :
  (∀ s n p st, P s → P (add_product s n p st).1.2) →
  ∀ fuel inputs s, P s →
    P (state (manager_menu lower strip to_float to_int fuel s inputs)) ∧
    how (manager_menu lower strip to_float to_int fuel s inputs) ≠ RaisedOverflow ∧
    unread (manager_menu lower strip to_float to_int fuel s inputs) `suffix_of` inputs.
Proof.
  intros Hstep. induction fuel as [|fuel IH]; intros inputs s HP; [done|].
  destruct inputs as [|line rest]; [done|].
  assert (Hrec : ∀ s' ins, ins `suffix_of` rest → P s' →
            P (state (manager_menu lower strip to_float to_int fuel s' ins)) ∧
            how (manager_menu lower strip to_float to_int fuel s' ins) ≠ RaisedOverflow ∧
            unread (manager_menu lower strip to_float to_int fuel s' ins) `suffix_of` line :: rest).
  { intros s' ins Hsuf HP'. destruct (IH ins s' HP') as (H1 & H2 & H3).
    split_and!; [done..|]. apply suffix_cons_r. by etrans. }
  cbn [manager_menu]. cbv zeta. case_decide as H1.
  { destruct (add_products_menu_spec P (λ s n p st HP _, Hstep s n p st HP)
                (length rest) rest s) as (HP' & Hhow & Hsuf); [done..|].
    destruct Hhow as [Hh|Hh]; rewrite Hh.
    - by apply Hrec.
    - split_and!; [done|congruence|by apply suffix_cons_r]. }
  case_decide as H2; [by apply Hrec|].
  case_decide as H3; [simpl; split_and!; solve_suffix|].
  by apply Hrec.
Qed.

(** With more fuel than input lines, [manager_menu] ends by itself. *)
Lemma manager_menu_ends fuel inputs s :
  (length inputs < fuel)%nat →
  how (manager_menu lower strip to_float to_int fuel s inputs) ≠ NoFuel.
Proof.
  revert inputs s. induction fuel as [|fuel IH]; intros inputs s Hlen; [lia|].
  destruct inputs as [|line rest]; [done|]. simpl in Hlen.
  cbn [manager_menu]. cbv zeta. case_decide as H1.
  { destruct (add_products_menu_spec (λ _, True) (λ _ _ _ _ _ _, I)
                (length rest) rest s) as (_ & Hhow & Hsuf); [done..|].
    apply suffix_length in Hsuf.
    destruct Hhow as [Hh|Hh]; rewrite Hh; [apply IH; lia|by rewrite Hh]. }
  case_decide as H2; [apply IH; lia|].
  case_decide as H3; [done|]. apply IH. lia.
Qed.

(** Fuel beyond the number of input lines changes nothing. *)
Lemma manager_menu_fuel fuel fuel' inputs s :
  (length inputs < fuel)%nat → (length inputs < fuel')%nat →
  manager_menu lower strip to_float to_int fuel s inputs =
  manager_menu lower strip to_float to_int fuel' s inputs.
Proof.
  revert fuel' inputs s. induction fuel as [|fuel IH]; intros fuel' inputs s Hlen Hlen'; [lia|].
  destruct fuel' as [|fuel']; [lia|].
  destruct inputs as [|line rest]; [done|]. simpl in Hlen, Hlen'.
  cbn [manager_menu]. cbv zeta. case_decide as H1.
  { destruct (add_products_menu_spec (λ _, True) (λ _ _ _ _ _ _, I)
                (length rest) rest s) as (_ & _ & Hsuf); [done..|].
    apply suffix_length in Hsuf.
    destruct (how (add_products_menu lower to_float to_int s rest)); try done.
    apply IH; lia. }
  case_decide as H2; [apply IH; lia|].
  case_decide as H3; [done|]. apply IH; lia.
Qed.

Lemma manager_login_unread inputs b rest :
  manager_login inputs = Some (b, rest) →
  ∃ username password,
    inputs = username :: password :: rest ∧
    b = bool_decide (username = manager_username) &&
        bool_decide (password = manager_password).
Proof.
  destruct inputs as [|username [|password rest']]; simpl; try done.
  intros [= <- <-]. by exists username, password.
Qed.

(** The loop of [main] keeps whatever the calls of a run of the program
    keep, and leaves unread an end of its input. *)
Lemma main_loop_spec (P : State → Prop) :
  (∀ s o, P s → found_product float_sum lower s o → P (exec float_sum lower s o)) →
  ∀ fuel inputs s, P s →
    ends_from float_sum lower P (main_loop float_sum lower strip to_float to_int fuel s inputs) ∧
    unread (main_loop float_sum lower strip to_float to_int fuel s inputs) `suffix_of` inputs.
Proof.
  intros Hstep. induction fuel as [|fuel IH]; intros inputs s HP;
    [split; [by apply ends_from_here|done]|].
  destruct inputs as [|line rest]; [split; [by apply ends_from_here|done]|].
  assert (Hrec : ∀ s' ins, ins `suffix_of` rest → P s' →
            ends_from float_sum lower P
              (main_loop float_sum lower strip to_float to_int fuel s' ins) ∧
            unread (main_loop float_sum lower strip to_float to_int fuel s' ins)
              `suffix_of` line :: rest).
  { intros s' ins Hsuf HP'. destruct (IH ins s' HP') as (H1 & H2).
    split; [done|]. apply suffix_cons_r. by etrans. }
  cbn [main_loop]. cbv zeta. case_decide as H1.
  { destruct (manager_login rest) as [[b rest']|] eqn:Hlogin;
      [|split; [by apply ends_from_here|solve_suffix]].
    apply manager_login_unread in Hlogin as (u & pw & -> & _).
    destruct b; [|apply Hrec; [solve_suffix|done]].
    destruct (manager_menu_spec P
                (λ s n p st HP, Hstep s (OpAddProduct n p st) HP I) fuel rest' s HP)
      as (HP' & _ & Hsuf).
    assert (Hsuf' : unread (manager_menu lower strip to_float to_int fuel s rest')
                      `suffix_of` u :: pw :: rest') by (do 2 apply suffix_cons_r; done).
    destruct (how (manager_menu lower strip to_float to_int fuel s rest'));
      [by apply Hrec|split; [by apply ends_from_here|by apply suffix_cons_r]..]. }
  case_decide as H2.
  { destruct (customer_menu_spec P s rest
                (λ s o HP Hok _, Hstep s o HP Hok) HP) as (Hends & _ & Hsuf).
    destruct (how (customer_menu float_sum lower strip to_int s rest)) eqn:Hh;
      [|split; [done|by apply suffix_cons_r]..].
    apply Hrec; [done|]. apply Hends. by rewrite Hh. }
  case_decide as H3; [split; [by apply ends_from_here|solve_suffix]|].
  apply Hrec; [solve_suffix|done].
Qed.

(** With more fuel than input lines, the loop of [main] ends by itself. *)
Lemma main_loop_ends fuel inputs s :
  (length inputs < fuel)%nat →
  how (main_loop float_sum lower strip to_float to_int fuel s inputs) ≠ NoFuel.
Proof.
  revert inputs s. induction fuel as [|fuel IH]; intros inputs s Hlen; [lia|].
  destruct inputs as [|line rest]; [done|]. simpl in Hlen.
  cbn [main_loop]. cbv zeta. case_decide as H1.
  { destruct (manager_login rest) as [[b rest']|] eqn:Hlogin; [|done].
    apply manager_login_unread in Hlogin as (u & pw & -> & _). simpl in Hlen.
    destruct b; [|apply IH; lia].
    pose proof (manager_menu_ends fuel rest' s) as Hends.
    destruct (manager_menu_spec (λ _, True) (λ _ _ _ _ _, I) fuel rest' s I) as (_ & _ & Hsuf).
    apply suffix_length in Hsuf.
    destruct (how (manager_menu lower strip to_float to_int fuel s rest')) eqn:Hh;
      [apply IH; lia|by rewrite Hh..|].
    exfalso. apply Hends; [lia|done]. }
  case_decide as H2.
  { destruct (customer_menu_spec (λ _, True) s rest (λ _ _ _ _ _, I) I) as (_ & Hhow & Hsuf).
    apply suffix_length in Hsuf.
    destruct (how (customer_menu float_sum lower strip to_int s rest)) eqn:Hh;
      [apply IH; lia|by rewrite Hh..|done]. }
  case_decide as H3; [done|]. apply IH. lia.
Qed.

(** Fuel beyond the number of input lines changes nothing. *)
Lemma main_loop_fuel fuel fuel' inputs s :
  (length inputs < fuel)%nat → (length inputs < fuel')%nat →
  main_loop float_sum lower strip to_float to_int fuel s inputs =
  main_loop float_sum lower strip to_float to_int fuel' s inputs.
Proof.
  revert fuel' inputs s. induction fuel as [|fuel IH]; intros fuel' inputs s Hlen Hlen'; [lia|].
  destruct fuel' as [|fuel']; [lia|].
  destruct inputs as [|line rest]; [done|]. simpl in Hlen, Hlen'.
  cbn [main_loop]. cbv zeta. case_decide as H1.
  { destruct (manager_login rest) as [[b rest']|] eqn:Hlogin; [|done].
    apply manager_login_unread in Hlogin as (u & pw & -> & _). simpl in Hlen, Hlen'.
    destruct b; [|apply IH; lia].
    rewrite (manager_menu_fuel fuel fuel' rest' s) by lia.
    destruct (manager_menu_spec (λ _, True) (λ _ _ _ _ _, I) fuel' rest' s I) as (_ & _ & Hsuf).
    apply suffix_length in Hsuf.
    destruct (how (manager_menu lower strip to_float to_int fuel' s rest')); try done.
    apply IH; lia. }
  case_decide as H2.
  { destruct (customer_menu_spec (λ _, True) s rest (λ _ _ _ _ _, I) I) as (_ & _ & Hsuf).
    apply suffix_length in Hsuf.
    destruct (how (customer_menu float_sum lower strip to_int s rest)); try done.
    apply IH; lia. }
  case_decide as H3; [done|]. apply IH; lia.
Qed.

(** Without the manager's password in the input, the loop of [main] keeps
    whatever the calls on the cart keep. *)
Lemma main_loop_no_login (P : State → Prop) :
  (∀ s o, P s → found_product float_sum lower s o → (∀ n p st, o ≠ OpAddProduct n p st) →
          P (exec float_sum lower s o)) →
  ∀ fuel inputs s,
    Forall (λ line, line ≠ manager_password) inputs → P s →
    ends_from float_sum lower P (main_loop float_sum lower strip to_float to_int fuel s inputs).
Proof.
  intros Hstep. induction fuel as [|fuel IH]; intros inputs s Hpw HP;
    [by apply ends_from_here|].
  destruct inputs as [|line rest]; [by apply ends_from_here|].
  apply Forall_cons in Hpw as [_ Hpw].
  cbn [main_loop]. cbv zeta. case_decide as H1.
  { destruct (manager_login rest) as [[b rest']|] eqn:Hlogin; [|by apply ends_from_here].
    apply manager_login_unread in Hlogin as (u & pw & -> & ->).
    apply Forall_cons in Hpw as [_ Hpw]. apply Forall_cons in Hpw as [Hne Hpw].
    rewrite (bool_decide_eq_false_2 (pw = manager_password)) by done.
    rewrite andb_false_r. by apply IH. }
  case_decide as H2.
  { destruct (customer_menu_spec P s rest Hstep HP) as (Hends & _ & Hsuf).
    destruct (how (customer_menu float_sum lower strip to_int s rest)) eqn:Hh; try done.
    apply IH; [by eapply Forall_suffix_of|]. apply Hends. by rewrite Hh. }
  case_decide as H3; [by apply ends_from_here|]. by apply IH.
Qed.

End MenuLemmas.

Lemma seeded_reachable_any float_sum lower :
  reachable float_sum lower (found_product float_sum lower) seeded.
Proof.
  change seeded with
    (exec float_sum lower (exec float_sum lower init (OpAddProduct "Laptop" (float_of_Z 1200) 5))
          (OpAddProduct "Mouse" (float_of_Z 25) 20)).
  by repeat constructor.
Qed.

Lemma main_start float_sum lower strip to_float to_int fuel inputs :
  main float_sum lower strip to_float to_int fuel inputs =
  main_loop float_sum lower strip to_float to_int fuel seeded inputs.
Proof. reflexivity. Qed.

(** X17. [add_products_menu], on any input: it returns, by "done", or is
    left by [EOFError] at the end of the input; what it leaves unread is an
    end of the input; the cart and the products that were in the catalog
    are as before, the catalog is extended at its end; and every product it
    added has a name that does not lower to "done", a price that is not
    <= 0 (a price > 0, or NaN) and a stock >= 0. *)
Theorem add_products_menu_adds_valid_products
    (float_sum : list float → float) (lower : string → string)
    (to_float : string → option float) (to_int : string → option Z)
    (s : State) (inputs : list string) :
  reachable float_sum lower any_product s →
  (how (add_products_menu lower to_float to_int s inputs) = Returned ∨
   how (add_products_menu lower to_float to_int s inputs) = RaisedEOF) ∧
  unread (add_products_menu lower to_float to_int s inputs) `suffix_of` inputs ∧
  products s `prefix_of` products (state (add_products_menu lower to_float to_int s inputs)) ∧
  items (state (add_products_menu lower to_float to_int s inputs)) = items s ∧
  (∀ r, r ∈ products s →
        objs (state (add_products_menu lower to_float to_int s inputs)) r = objs s r) ∧
  (∀ r, r ∈ products (state (add_products_menu lower to_float to_int s inputs)) →
        r ∉ products s →
        lower (name (objs (state (add_products_menu lower to_float to_int s inputs)) r)) ≠ "done" ∧
        le_zero (price (objs (state (add_products_menu lower to_float to_int s inputs)) r)) = false ∧
        0 ≤ stock (objs (state (add_products_menu lower to_float to_int s inputs)) r)).
Proof.
  intros Hs. pose proof (reachable_wf float_sum lower s Hs) as Hwf.
  set (P := λ s' : State,
         (∀ r, r ∈ products s' → (r < next s')%nat) ∧
         products s `prefix_of` products s' ∧
         items s' = items s ∧
         (∀ r, r ∈ products s → objs s' r = objs s r) ∧
         (∀ r, r ∈ products s' → r ∉ products s →
               lower (name (objs s' r)) ≠ "done" ∧ le_zero (price (objs s' r)) = false ∧
               0 ≤ stock (objs s' r))).
  destruct (add_products_menu_spec lower to_float to_int P) with (k := length inputs)
    (inputs := inputs) (s := s) as ((_ & Hpre & Hits & Hold & Hnew) & Hhow & Hsuf); try done.
  - clear. intros s' n p st (Halloc & Hpre & Hits & Hold & Hnew) Hdone.
    pose proof (λ r, add_product_old s' n p st r Halloc) as Hkeep.
    destruct (add_product_cases s' n p st) as [[out ->]|(Hp & Hst & Heq)]; [done|].
    rewrite Heq in *. simpl in *. unfold P. simpl. split_and!.
    + intros r [Hr| ->%list_elem_of_singleton]%elem_of_app; [apply Halloc in Hr|]; lia.
    + by apply prefix_app_r.
    + done.
    + intros r Hr. rewrite Hkeep; [by apply Hold|].
      destruct Hpre as [k ->]. apply elem_of_app. by left.
    + intros r [Hr| ->%list_elem_of_singleton]%elem_of_app Hnotin.
      * rewrite Hkeep by done. by apply Hnew.
      * unfold insert, fn_insert. by rewrite decide_True.
  - unfold P. split_and!; try done. apply (wf_alloc s Hwf).
Qed.

Lemma add_products_menu_adds_valid_products_witness :
  (how (add_products_menu ascii_lower digits_float digits_int seeded
          ["Pen"; "2"; "7"; "Ink"; "nan"; "3"; "Cap"; "x"; "DONE"; "left"]) = Returned ∨
   how (add_products_menu ascii_lower digits_float digits_int seeded
          ["Pen"; "2"; "7"; "Ink"; "nan"; "3"; "Cap"; "x"; "DONE"; "left"]) = RaisedEOF) ∧
  unread (add_products_menu ascii_lower digits_float digits_int seeded
         ["Pen"; "2"; "7"; "Ink"; "nan"; "3"; "Cap"; "x"; "DONE"; "left"])
    `suffix_of` ["Pen"; "2"; "7"; "Ink"; "nan"; "3"; "Cap"; "x"; "DONE"; "left"] ∧
  products seeded `prefix_of`
    products (state (add_products_menu ascii_lower digits_float digits_int seeded
                       ["Pen"; "2"; "7"; "Ink"; "nan"; "3"; "Cap"; "x"; "DONE"; "left"])) ∧
  items (state (add_products_menu ascii_lower digits_float digits_int seeded
                  ["Pen"; "2"; "7"; "Ink"; "nan"; "3"; "Cap"; "x"; "DONE"; "left"])) = items seeded ∧
  (∀ r, r ∈ products seeded →
        objs (state (add_products_menu ascii_lower digits_float digits_int seeded
                       ["Pen"; "2"; "7"; "Ink"; "nan"; "3"; "Cap"; "x"; "DONE"; "left"])) r
          = objs seeded r) ∧
  (∀ r, r ∈ products (state (add_products_menu ascii_lower digits_float digits_int seeded
                        ["Pen"; "2"; "7"; "Ink"; "nan"; "3"; "Cap"; "x"; "DONE"; "left"])) →
        r ∉ products seeded →
        ascii_lower (name (objs (state (add_products_menu ascii_lower digits_float digits_int
                       seeded ["Pen"; "2"; "7"; "Ink"; "nan"; "3"; "Cap"; "x"; "DONE"; "left"])) r))
          ≠ "done" ∧
        le_zero (price (objs (state (add_products_menu ascii_lower digits_float digits_int seeded
                       ["Pen"; "2"; "7"; "Ink"; "nan"; "3"; "Cap"; "x"; "DONE"; "left"])) r))
          = false ∧
        0 ≤ stock (objs (state (add_products_menu ascii_lower digits_float digits_int seeded
                       ["Pen"; "2"; "7"; "Ink"; "nan"; "3"; "Cap"; "x"; "DONE"; "left"])) r)).
Proof.
  apply (add_products_menu_adds_valid_products sum_left ascii_lower digits_float digits_int
           seeded ["Pen"; "2"; "7"; "Ink"; "nan"; "3"; "Cap"; "x"; "DONE"; "left"]).
  apply reachable_found_any, seeded_reachable.
Defined.

(** X18. A customer session, on any input: it returns or is left by
    [EOFError] or [OverflowError]; what it leaves unread is an end of the
    input; the catalog has the same products, with the same names and
    prices; the stock of every product is at most what it was and at least
    0, also when an [OverflowError] left [checkout] half way; and unless an
    [OverflowError] left it, the state is one of a run of the program. *)
Theorem customer_menu_session
    (float_sum : list float → float) (lower strip : string → string)
    (to_int : string → option Z) (s : State) (inputs : list string) :
  reachable float_sum lower (found_product float_sum lower) s →
  how (customer_menu float_sum lower strip to_int s inputs) ≠ NoFuel ∧
  unread (customer_menu float_sum lower strip to_int s inputs) `suffix_of` inputs ∧
  (how (customer_menu float_sum lower strip to_int s inputs) ≠ RaisedOverflow →
   reachable float_sum lower (found_product float_sum lower)
     (state (customer_menu float_sum lower strip to_int s inputs))) ∧
  products (state (customer_menu float_sum lower strip to_int s inputs)) = products s ∧
  (∀ r, r ∈ products s →
     name (objs (state (customer_menu float_sum lower strip to_int s inputs)) r)
       = name (objs s r) ∧
     price (objs (state (customer_menu float_sum lower strip to_int s inputs)) r)
       = price (objs s r) ∧
     0 ≤ stock (objs (state (customer_menu float_sum lower strip to_int s inputs)) r) ∧
     stock (objs (state (customer_menu float_sum lower strip to_int s inputs)) r)
       ≤ stock (objs s r)).
Proof.
  intros Hs.
  set (P := λ s' : State,
         reachable float_sum lower (found_product float_sum lower) s' ∧
         products s' = products s ∧
         ∀ r, name (objs s' r) = name (objs s r) ∧ price (objs s' r) = price (objs s r) ∧
              stock (objs s' r) ≤ stock (objs s r)).
  destruct (customer_menu_spec float_sum lower strip to_int P s inputs)
    as ((Hrun & s' & (Hreach & Hprods & Hobjs) & Hstate) & Hhow & Hsuf).
  - clear. intros s' o (Hreach & Hprods & Hobjs) Hok Hop.
    pose proof (reachable_wf float_sum lower s'
                  (reachable_found_any float_sum lower s' Hreach)) as Hwf.
    destruct (exec_cart_op float_sum lower s' o Hwf Hop) as [Hprods' Hobjs'].
    unfold P. split_and!.
    + by constructor.
    + congruence.
    + intros r. destruct (Hobjs r) as (? & ? & ?), (Hobjs' r) as (? & ? & ?).
      split_and!; [congruence..|lia].
  - unfold P. split_and!; [done..|]. intros r. split_and!; [done..|lia].
  - pose proof (reachable_wf float_sum lower s'
                  (reachable_found_any float_sum lower s' Hreach)) as Hwf.
    pose proof (reachable_menu_inv float_sum lower s' Hreach) as Hinv.
    split_and!; [done..|by intros Hno; apply Hrun| |].
    + destruct Hstate as [-> | ->]; [done|].
      destruct (exec_cart_op float_sum lower s' OpCheckout Hwf) as [Hp' _]; [done|]. congruence.
    + intros r Hr. destruct (Hobjs r) as (Hn & Hp & Hst).
      destruct Hstate as [-> | ->]; [split_and!; try done|].
      * apply (mi_stock lower s' Hinv). by rewrite Hprods.
      * destruct (exec_cart_op float_sum lower s' OpCheckout Hwf) as [_ Hobjs']; [done|].
        destruct (Hobjs' r) as (? & ? & ?). split_and!; [congruence..| |lia].
        rewrite exec_checkout. cbn [objs]. rewrite checkout_heap.
        apply (checkout_stock_nonneg lower); [done..|]. by rewrite Hprods.
Qed.

Lemma customer_menu_session_witness :
  how (customer_menu sum_left ascii_lower id digits_int bulk ["3"; "left"]) ≠ NoFuel ∧
  unread (customer_menu sum_left ascii_lower id digits_int bulk ["3"; "left"])
    `suffix_of` ["3"; "left"] ∧
  (how (customer_menu sum_left ascii_lower id digits_int bulk ["3"; "left"]) ≠ RaisedOverflow →
   reachable sum_left ascii_lower (found_product sum_left ascii_lower)
     (state (customer_menu sum_left ascii_lower id digits_int bulk ["3"; "left"]))) ∧
  products (state (customer_menu sum_left ascii_lower id digits_int bulk ["3"; "left"]))
    = products bulk ∧
  (∀ r, r ∈ products bulk →
     name (objs (state (customer_menu sum_left ascii_lower id digits_int bulk ["3"; "left"])) r)
       = name (objs bulk r) ∧
     price (objs (state (customer_menu sum_left ascii_lower id digits_int bulk ["3"; "left"])) r)
       = price (objs bulk r) ∧
     0 ≤ stock (objs (state (customer_menu sum_left ascii_lower id digits_int bulk
                               ["3"; "left"])) r) ∧
     stock (objs (state (customer_menu sum_left ascii_lower id digits_int bulk ["3"; "left"])) r)
       ≤ stock (objs bulk r)).
Proof.
  apply (customer_menu_session sum_left ascii_lower id digits_int bulk ["3"; "left"]).
  apply bulk_reachable.
Defined.

(** X19. The program, on any input and with any fuel: in the state [main]
    ends in, however it ends, every product of the catalog has a price that
    is not <= 0 (so a price > 0 unless it is NaN) and a stock >= 0; and
    unless an [OverflowError] left it, the state is one of a run of the
    program, where every item of the cart has a quantity between 1 and the
    stock of its product. *)
Theorem main_keeps_invariants
    (float_sum : list float → float) (lower strip : string → string)
    (to_float : string → option float) (to_int : string → option Z)
    (fuel : nat) (inputs : list string) :
  (∀ r, r ∈ products (state (main float_sum lower strip to_float to_int fuel inputs)) →
     le_zero (price (objs (state (main float_sum lower strip to_float to_int fuel inputs)) r))
       = false ∧
     (is_nan (price (objs (state (main float_sum lower strip to_float to_int fuel inputs)) r))
        = false →
      gt_zero (price (objs (state (main float_sum lower strip to_float to_int fuel inputs)) r))
        = true) ∧
     0 ≤ stock (objs (state (main float_sum lower strip to_float to_int fuel inputs)) r)) ∧
  (how (main float_sum lower strip to_float to_int fuel inputs) ≠ RaisedOverflow →
   reachable float_sum lower (found_product float_sum lower)
     (state (main float_sum lower strip to_float to_int fuel inputs)) ∧
   ∀ item, item ∈ items (state (main float_sum lower strip to_float to_int fuel inputs)) →
     0 < quantity item ∧
     quantity item ≤ stock (objs (state (main float_sum lower strip to_float to_int fuel inputs))
                                 (product item))).
Proof.
  rewrite main_start.
  destruct (main_loop_spec float_sum lower strip to_float to_int
              (reachable float_sum lower (found_product float_sum lower))
              (λ s o Hs Hok, reachable_step float_sum lower _ s o Hs Hok)
              fuel inputs seeded (seeded_reachable_any float_sum lower))
    as [(Hrun & s' & Hreach & Hstate) _].
  pose proof (reachable_wf float_sum lower s'
                (reachable_found_any float_sum lower s' Hreach)) as Hwf.
  pose proof (reachable_menu_inv float_sum lower s' Hreach) as Hinv.
  split.
  - assert (Hgoal : ∀ r, r ∈ products (state (main_loop float_sum lower strip to_float to_int
                                                 fuel seeded inputs)) →
              le_zero (price (objs (state (main_loop float_sum lower strip to_float to_int
                                             fuel seeded inputs)) r)) = false ∧
              0 ≤ stock (objs (state (main_loop float_sum lower strip to_float to_int
                                        fuel seeded inputs)) r)).
    { destruct Hstate as [-> | ->].
      - intros r Hr. split; [by apply (wf_price s' Hwf)|by apply (mi_stock lower s' Hinv)].
      - rewrite exec_checkout. cbn [objs products]. rewrite checkout_heap.
        intros r Hr. rewrite checkout_loop_price.
        split; [by apply (wf_price s' Hwf)|by apply (checkout_stock_nonneg lower)]. }
    intros r Hr. destruct (Hgoal r Hr) as [Hle Hst]. split_and!; [done| |done].
    intros Hnan. by apply not_le_zero_gt_zero.
  - intros Hno. specialize (Hrun Hno). split; [done|].
    pose proof (reachable_wf float_sum lower _
                  (reachable_found_any float_sum lower _ Hrun)) as Hwf'.
    destruct (reachable_menu_inv float_sum lower _ Hrun) as [_ Hbound _].
    intros item Hin. split; [by apply (wf_quantity _ Hwf')|by apply Hbound].
Qed.

(** X20. The program ends on every input: with more fuel than there are
    input lines, [main] returns (choice 3) or is left by an exception, the
    [EOFError] of an [input()] at the end of the input or the
    [OverflowError] of a line total; the fuel never runs out, and more fuel
    gives the same result. What is left unread is an end of the input. *)
Theorem main_ends
    (float_sum : list float → float) (lower strip : string → string)
    (to_float : string → option float) (to_int : string → option Z)
    (fuel : nat) (inputs : list string) :
  (length inputs < fuel)%nat →
  how (main float_sum lower strip to_float to_int fuel inputs) ≠ NoFuel ∧
  main float_sum lower strip to_float to_int fuel inputs =
    main float_sum lower strip to_float to_int (S (length inputs)) inputs ∧
  unread (main float_sum lower strip to_float to_int fuel inputs) `suffix_of` inputs.
Proof.
  intros Hfuel. rewrite !main_start. split_and!.
  - by apply main_loop_ends.
  - apply main_loop_fuel; lia.
  - by apply (main_loop_spec float_sum lower strip to_float to_int (λ _, True)).
Qed.

Lemma main_ends_witness :
  how (main sum_left ascii_lower id digits_float digits_int 9
         ["1"; "admin"; "1234"; "1"; "Pen"; "2"; "7"; "done"]) ≠ NoFuel ∧
  main sum_left ascii_lower id digits_float digits_int 9
         ["1"; "admin"; "1234"; "1"; "Pen"; "2"; "7"; "done"] =
    main sum_left ascii_lower id digits_float digits_int
         (S (length ["1"; "admin"; "1234"; "1"; "Pen"; "2"; "7"; "done"]))
         ["1"; "admin"; "1234"; "1"; "Pen"; "2"; "7"; "done"] ∧
  unread (main sum_left ascii_lower id digits_float digits_int 9
         ["1"; "admin"; "1234"; "1"; "Pen"; "2"; "7"; "done"])
    `suffix_of` ["1"; "admin"; "1234"; "1"; "Pen"; "2"; "7"; "done"].
Proof.
  apply (main_ends sum_left ascii_lower id digits_float digits_int 9
           ["1"; "admin"; "1234"; "1"; "Pen"; "2"; "7"; "done"]).
  simpl. lia.
Defined.

(** X21. The manager's gate: if no line of the input is the manager's
    password, the catalog [main] ends with is the one it started with, the
    two sample products with their names and prices; no product is added,
    and the stocks have only gone down. *)
Theorem main_without_password
    (float_sum : list float → float) (lower strip : string → string)
    (to_float : string → option float) (to_int : string → option Z)
    (fuel : nat) (inputs : list string) :
  Forall (λ line, line ≠ manager_password) inputs →
  products (state (main float_sum lower strip to_float to_int fuel inputs)) = products seeded ∧
  ∀ r, name (objs (state (main float_sum lower strip to_float to_int fuel inputs)) r) =
         name (objs seeded r) ∧
       price (objs (state (main float_sum lower strip to_float to_int fuel inputs)) r) =
         price (objs seeded r) ∧
       stock (objs (state (main float_sum lower strip to_float to_int fuel inputs)) r) ≤
         stock (objs seeded r).
Proof.
  intros Hpw. rewrite main_start.
  set (P := λ s' : State,
         wf s' ∧ products s' = products seeded ∧
         ∀ r, name (objs s' r) = name (objs seeded r) ∧
              price (objs s' r) = price (objs seeded r) ∧
              stock (objs s' r) ≤ stock (objs seeded r)).
  assert (Hstep : ∀ s' o, P s' → any_product s' o → (∀ n p st, o ≠ OpAddProduct n p st) →
            P (exec float_sum lower s' o)).
  { clear. intros s' o (Hwf & Hprods & Hobjs) Hok Hop.
    destruct (exec_cart_op float_sum lower s' o Hwf Hop) as [Hprods' Hobjs'].
    unfold P. split_and!.
    - by apply wf_exec.
    - congruence.
    - intros r. destruct (Hobjs r) as (? & ? & ?), (Hobjs' r) as (? & ? & ?).
      split_and!; [congruence..|lia]. }
  destruct (main_loop_no_login float_sum lower strip to_float to_int P) with (fuel := fuel)
    (inputs := inputs) (s := seeded) as (_ & s' & HP & Hstate); try done.
  - intros s' o HP Hok Hop. apply Hstep; [done| |done]. by apply (found_any float_sum lower).
  - unfold P. split_and!; [|done|].
    + apply (reachable_wf float_sum lower), reachable_found_any, seeded_reachable_any.
    + intros r. split_and!; [done..|lia].
  - assert (HP' : P (state (main_loop float_sum lower strip to_float to_int fuel seeded inputs))).
    { destruct Hstate as [-> | ->]; [done|]. by apply Hstep. }
    by destruct HP' as (_ & ? & ?).
Qed.

Lemma main_without_password_witness :
  products (state (main sum_left ascii_lower id digits_float digits_int 9
                     ["1"; "admin"; "12345"; "2"; "1"; "mouse"; "3"; "4"])) = products seeded ∧
  ∀ r, name (objs (state (main sum_left ascii_lower id digits_float digits_int 9
                     ["1"; "admin"; "12345"; "2"; "1"; "mouse"; "3"; "4"])) r) =
         name (objs seeded r) ∧
       price (objs (state (main sum_left ascii_lower id digits_float digits_int 9
                     ["1"; "admin"; "12345"; "2"; "1"; "mouse"; "3"; "4"])) r) =
         price (objs seeded r) ∧
       stock (objs (state (main sum_left ascii_lower id digits_float digits_int 9
                     ["1"; "admin"; "12345"; "2"; "1"; "mouse"; "3"; "4"])) r) ≤
         stock (objs seeded r).
Proof.
  apply (main_without_password sum_left ascii_lower id digits_float digits_int 9
           ["1"; "admin"; "12345"; "2"; "1"; "mouse"; "3"; "4"]).
  repeat constructor; by vm_compute.
Defined.

(** The runs of the witnesses above, and the run that the overflow ends,
    evaluated. *)
Example main_run_manager :
  let res := main sum_left ascii_lower id digits_float digits_int 9
               ["1"; "admin"; "1234"; "1"; "Pen"; "2"; "7"; "done"] in
  how res = RaisedEOF ∧ products (state res) = [0%nat; 1%nat; 2%nat] ∧
  objs (state res) 2%nat = mkProduct "Pen" (float_of_Z 2) 7.
Proof. vm_compute. repeat split; reflexivity. Qed.

Example main_run_customer :
  let res := main sum_left ascii_lower id digits_float digits_int 9
               ["1"; "admin"; "12345"; "2"; "1"; "mouse"; "3"; "4"; "3"] in
  how res = Returned ∧ unread res = [] ∧
  stock (objs (state res) 1%nat) = 17 ∧ items (state res) = [].
Proof. vm_compute. repeat split; reflexivity. Qed.

Example main_run_nan :
  let res := main sum_left ascii_lower id digits_float digits_int 9
               ["1"; "admin"; "1234"; "1"; "Ink"; "nan"; "3"; "done"; "3"; "3"] in
  how res = Returned ∧ products (state res) = [0%nat; 1%nat; 2%nat] ∧
  objs (state res) 2%nat = mkProduct "Ink" S754_nan 3.
Proof. vm_compute. repeat split; reflexivity. Qed.

Example customer_session_overflow :
  let res := customer_menu sum_left ascii_lower id digits_int bulk
               ["1"; "nail"; "1"; "1"; "sand"; "179769313486231590772930519078902473361797697894230657273430081157732675805500963132708477322407536021120113879871393357658789768814416622492847430639474124377767893424865485276302219601246094119453082952085005768838150682342462881473913110540827237163350510684586298239947245938479716304835356329624224137216"; "4"; "3"] in
  how res = RaisedOverflow ∧ unread res = ["3"] ∧
  items (state res) = [mkCartItem 0%nat 1; mkCartItem 1%nat (2 ^ 1024)] ∧
  stock (objs (state res) 0%nat) = 4 ∧ stock (objs (state res) 1%nat) = 2 ^ 1024.
Proof. vm_compute. repeat split; reflexivity. Qed.
